(** * P2P USDT escrow trading API: the Deal lifecycle

    A shallow embedding of the request handlers of [src/main.py]
    ([create_deal], [confirm_payment], [release_funds]), of the tables of
    [src/models.py], of the request schemas of [src/schemas.py] and of the
    trade-code generator [Deal.generate_trade_code], followed by the
    properties of the Deal state machine.

    - Python [float] is IEEE 754 binary64: the kernel's primitive floats.
    - Python [int] is unbounded: [Z].
    - A table is the list of its rows in insertion order;
      [query.filter(p).first()] is the first row satisfying [p].
    - A handler either returns, raises, or (the trade-code loop of
      [create_deal]) does not terminate on the fuel it was given. *)

From Stdlib Require Import List String Ascii Bool ZArith Arith Lia Floats.
From Stdlib Require Import Sorted.
Import ListNotations.

Local Open Scope string_scope.
Local Open Scope list_scope.
Local Open Scope Z_scope.

(** ** Random source

    [random.choices(population, k=n)] returns [n] elements
    [population[floor(random() * len(population))]], every index being in
    [range(len(population))].  The generator is a stream of naturals read at
    a cursor; a draw is reduced into the range of valid indexes. *)

Record Random := mkRandom { draws : nat -> nat; position : nat }.

Definition advance (r : Random) : Random :=
  mkRandom (draws r) (S (position r)).

Definition choice (population : list ascii) (r : Random) : ascii * Random :=
  (nth (Nat.modulo (draws r (position r)) (List.length population)) population " "%char,
   advance r).

Fixpoint choices (population : list ascii) (k : nat) (r : Random)
  : list ascii * Random :=
  match k with
  | O => ([], r)
  | S k' =>
      let (c, r1) := choice population r in
      let (cs, r2) := choices population k' r1 in
      (c :: cs, r2)
  end.

(** [string.ascii_uppercase] and [string.digits]. *)
Definition ascii_uppercase : string := "ABCDEFGHIJKLMNOPQRSTUVWXYZ".
Definition digits : string := "0123456789".

(** ** Tables ([src/models.py]) *)

Definition Timestamp := nat.
Bind Scope nat_scope with Timestamp.

Module User.
Record t := mk {
  id : Z;
  name : string;
  telegram_username : string;
  user_type : string;
  verified : bool;
  created_at : Timestamp
}.
End User.

Module Listing.
Record t := mk {
  id : Z;
  user_id : Z;
  listing_type : string;
  amount : float;
  rate : float;
  payment_method : string;
  contact : string;
  status : string;
  created_at : Timestamp;
  updated_at : option Timestamp
}.

Definition with_status (st : string) (l : t) : t :=
  mk (id l) (user_id l) (listing_type l) (amount l) (rate l)
     (payment_method l) (contact l) st (created_at l) (updated_at l).

Definition with_rate (r : float) (l : t) : t :=
  mk (id l) (user_id l) (listing_type l) (amount l) r
     (payment_method l) (contact l) (status l) (created_at l) (updated_at l).
End Listing.

Module Deal.
Record t := mk {
  id : Z;
  listing_id : Z;
  buyer_id : Z;
  seller_id : Z;
  usdt_amount : float;
  etb_amount : float;
  trade_code : string;
  escrow_wallet : string;
  status : string;
  commission_amount : float;
  created_at : Timestamp;
  updated_at : option Timestamp
}.

(** The transient object built by [Deal(listing_id=..., ...)]: the primary
    key and [created_at] come from the database at commit, [status] from
    the column default ["pending"], and [updated_at] stays NULL. *)
Definition init (listing_id buyer_id seller_id : Z) (usdt_amount etb_amount : float)
    (trade_code escrow_wallet : string) (commission_amount : float)
    (pk : Z) (now : Timestamp) : t :=
  mk pk listing_id buyer_id seller_id usdt_amount etb_amount trade_code
     escrow_wallet "pending" commission_amount now None.

(** [deal.status = st] followed by a commit; [updated_at] has
    [onupdate=func.now()]. *)
Definition with_status (st : string) (now : Timestamp) (d : t) : t :=
  mk (id d) (listing_id d) (buyer_id d) (seller_id d) (usdt_amount d)
     (etb_amount d) (trade_code d) (escrow_wallet d) st
     (commission_amount d) (created_at d) (Some now).

(** [''.join(random.choices(string.ascii_uppercase + string.digits, k=5))] *)
Definition generate_trade_code (r : Random) : string * Random :=
  let (cs, r') := choices (list_ascii_of_string (ascii_uppercase ++ digits)%string) 5 r in
  (string_of_list_ascii cs, r').
End Deal.

(** The values the handlers format and return: the fragments of an f-string
    (literal text and interpolated values) and the values of a response
    dictionary. *)
Inductive Value :=
| Str (s : string)
| Num (x : float).

Module Log.
Record t := mk {
  id : Z;
  deal_id : Z;
  action : string;
  notes : list Value;
  timestamp : Timestamp
}.
End Log.

(** ** Database session ([src/database.py])

    The engine is PostgreSQL when [DATABASE_URL] says so and SQLite
    otherwise.  Both enforce the [unique=True] index of [Deal.trade_code];
    the [ForeignKey] columns are enforced by PostgreSQL only (SQLite ignores
    them unless [PRAGMA foreign_keys] is set, which the code never does).
    A commit that violates a constraint raises [IntegrityError] and leaves
    the tables as they were. *)

Inductive Dialect := sqlite | postgresql.

Definition foreign_keys (d : Dialect) : bool :=
  match d with
  | sqlite => false
  | postgresql => true
  end.

Record Db := mkDb {
  dialect : Dialect;
  users : list User.t;
  listings : list Listing.t;
  deals : list Deal.t;
  logs : list Log.t
}.

(** The primary key of a new row: one more than the largest in the table. *)
Definition next_id (ids : list Z) : Z := 1 + fold_right Z.max 0 ids.

Definition references (ids : list Z) (k : Z) : bool := existsb (Z.eqb k) ids.

(** [db.query(Listing).filter(Listing.id == i).first()] *)
Definition listing_by_id (i : Z) (db : Db) : option Listing.t :=
  find (fun l => Listing.id l =? i) (listings db).

(** [db.query(Deal).filter(Deal.trade_code == c).first()] *)
Definition deal_by_trade_code (c : string) (db : Db) : option Deal.t :=
  find (fun d => String.eqb (Deal.trade_code d) c) (deals db).

(** [db.add(db_deal); db.commit(); db.refresh(db_deal)] *)
Definition add_deal (new : Z -> Timestamp -> Deal.t) (now : Timestamp) (db : Db)
  : option (Deal.t * Db) :=
  let d := new (next_id (map Deal.id (deals db))) now in
  if existsb (fun d' => String.eqb (Deal.trade_code d') (Deal.trade_code d)) (deals db)
  then None
  else if foreign_keys (dialect db)
          && negb (references (map Listing.id (listings db)) (Deal.listing_id d)
                   && references (map User.id (users db)) (Deal.buyer_id d)
                   && references (map User.id (users db)) (Deal.seller_id d))
  then None
  else Some (d, mkDb (dialect db) (users db) (listings db) (deals db ++ [d]) (logs db)).

(** The tables with one more row in [logs]. *)
Definition append_log (deal_id : Z) (action : string) (notes : list Value)
    (now : Timestamp) (db : Db) : Db :=
  mkDb (dialect db) (users db) (listings db) (deals db)
    (logs db ++ [Log.mk (next_id (map Log.id (logs db))) deal_id action notes now]).

(** [db.add(log); db.commit()] *)
Definition add_log (deal_id : Z) (action : string) (notes : list Value)
    (now : Timestamp) (db : Db) : option Db :=
  if foreign_keys (dialect db) && negb (references (map Deal.id (deals db)) deal_id)
  then None
  else Some (append_log deal_id action notes now db).

(** [deal.status = st; db.commit()]: an UPDATE of the row with the deal's
    primary key. *)
Definition set_deal_status (pk : Z) (st : string) (now : Timestamp) (db : Db) : Db :=
  mkDb (dialect db) (users db) (listings db)
    (map (fun d => if Deal.id d =? pk then Deal.with_status st now d else d) (deals db))
    (logs db).

(** ** Request schemas ([src/schemas.py]) *)

Module DealCreate.
Record t := mk {
  usdt_amount : float;
  listing_id : Z;
  buyer_id : Z
}.

(** [usdt_amount: float = Field(..., gt=0)] *)
Definition validate (d : t) : bool := (0 <? usdt_amount d)%float.
End DealCreate.

Module PaymentConfirmation.
Record t := mk { trade_code : string }.

(** [trade_code: str = Field(..., min_length=1)] *)
Definition validate (c : t) : bool := (1 <=? String.length (trade_code c))%nat.
End PaymentConfirmation.

Module AdminRelease.
Record t := mk { trade_code : string; secret : string }.

Definition validate (r : t) : bool :=
  (1 <=? String.length (trade_code r))%nat && (1 <=? String.length (secret r))%nat.
End AdminRelease.

(** ** Configuration and outcomes ([src/main.py]) *)

Record Config := mkConfig {
  ESCROW_WALLET : string;
  COMMISSION_PERCENT : float;
  RELEASE_SECRET : string
}.

(** The values used when the environment sets none. *)
Definition default_config : Config :=
  mkConfig "TXxxxxxx" 1.5%float "p2p_secure_release_key_2024".

Inductive Exception :=
| HTTPException (status_code : Z) (detail : string)
| RequestValidationError
| IntegrityError.

(** What a handler does to the state [S] it runs on. *)
Inductive Outcome (S A : Type) :=
| Returned (a : A) (s : S)
| Raised (e : Exception) (s : S)
| Diverged.
Arguments Returned {S A} a s.
Arguments Raised {S A} e s.
Arguments Diverged {S A}.

(** [s.startswith(p)] and [s[1:]]. *)
Fixpoint startswith (s p : string) {struct p} : bool :=
  match p with
  | EmptyString => true
  | String a p' =>
      match s with
      | EmptyString => false
      | String b s' => Ascii.eqb b a && startswith s' p'
      end
  end.
Definition from_1 (s : string) : string :=
  match s with
  | EmptyString => EmptyString
  | String _ t => t
  end.

(** ** User and listing endpoints *)

Module UserCreate.
Record t := mk { name : string; telegram_username : string; user_type : string }.
End UserCreate.

Module ListingCreate.
Record t := mk {
  listing_type : string;
  amount : float;
  rate : float;
  payment_method : string;
  contact : string;
  user_id : Z
}.
End ListingCreate.

Definition create_user (now : Timestamp) (user : UserCreate.t) (db : Db)
  : Outcome Db User.t :=
  match find (fun u => String.eqb (User.telegram_username u)
                         (UserCreate.telegram_username user)) (users db) with
  | Some _ => Raised (HTTPException 400 "User already exists") db
  | None =>
      let db_user :=
        User.mk (next_id (map User.id (users db))) (UserCreate.name user)
          (UserCreate.telegram_username user) (UserCreate.user_type user) false now in
      Returned db_user
        (mkDb (dialect db) (users db ++ [db_user]) (listings db) (deals db) (logs db))
  end.

Definition create_listing (now : Timestamp) (listing : ListingCreate.t) (db : Db)
  : Outcome Db Listing.t :=
  match find (fun u => User.id u =? ListingCreate.user_id listing) (users db) with
  | None => Raised (HTTPException 404 "User not found") db
  | Some _ =>
      let db_listing :=
        Listing.mk (next_id (map Listing.id (listings db)))
          (ListingCreate.user_id listing) (ListingCreate.listing_type listing)
          (ListingCreate.amount listing) (ListingCreate.rate listing)
          (ListingCreate.payment_method listing) (ListingCreate.contact listing)
          "active" now None in
      Returned db_listing
        (mkDb (dialect db) (users db) (listings db ++ [db_listing]) (deals db) (logs db))
  end.

(** ** Deal endpoints *)

(** The loop of [create_deal] that draws trade codes until one is unused:
<<
    trade_code = Deal.generate_trade_code()
    while db.query(Deal).filter(Deal.trade_code == trade_code).first():
        trade_code = Deal.generate_trade_code()
>>
    [fuel] bounds the number of draws; [None] is the loop still running. *)
Fixpoint unique_trade_code (fuel : nat) (r : Random) (db : Db)
  : option (string * Random) :=
  match fuel with
  | O => None
  | S fuel' =>
      let (trade_code, r') := Deal.generate_trade_code r in
      match deal_by_trade_code trade_code db with
      | Some _ => unique_trade_code fuel' r' db
      | None => Some (trade_code, r')
      end
  end.

Definition create_deal (cfg : Config) (fuel : nat) (now : Timestamp)
    (deal : DealCreate.t) (s : Db * Random) : Outcome (Db * Random) Deal.t :=
  let (db, r) := s in
  match listing_by_id (DealCreate.listing_id deal) db with
  | None => Raised (HTTPException 404 "Listing not found") s
  | Some listing =>
      match unique_trade_code fuel r db with
      | None => Diverged
      | Some (trade_code, r') =>
          let etb_amount := (DealCreate.usdt_amount deal * Listing.rate listing)%float in
          let commission :=
            (DealCreate.usdt_amount deal * (COMMISSION_PERCENT cfg / 100))%float in
          let db_deal :=
            Deal.init (DealCreate.listing_id deal) (DealCreate.buyer_id deal)
              (Listing.user_id listing) (DealCreate.usdt_amount deal) etb_amount
              trade_code (ESCROW_WALLET cfg) commission in
          match add_deal db_deal now db with
          | None => Raised IntegrityError (db, r')
          | Some (db_deal, db1) =>
              match add_log (Deal.id db_deal) "Deal created"
                      [Str "Trade code: "; Str trade_code; Str ", Amount: ";
                       Num (DealCreate.usdt_amount deal); Str " USDT"] now db1 with
              | None => Raised IntegrityError (db1, r')
              | Some db2 => Returned db_deal (db2, r')
              end
          end
      end
  end.

Definition confirm_payment (now : Timestamp) (confirmation : PaymentConfirmation.t)
    (db : Db) : Outcome Db (list (string * Value)) :=
  let trade_code := PaymentConfirmation.trade_code confirmation in
  let trade_code := if startswith trade_code "#" then from_1 trade_code else trade_code in
  match deal_by_trade_code trade_code db with
  | None => Raised (HTTPException 404 "Deal not found") db
  | Some deal =>
      if negb (String.eqb (Deal.status deal) "pending")
      then Raised (HTTPException 400 "Deal is not in pending status") db
      else
        let db1 := set_deal_status (Deal.id deal) "paid" now db in
        match add_log (Deal.id deal) "Payment confirmed"
                [Str "Seller confirmed ETB payment received"] now db1 with
        | None => Raised IntegrityError db1
        | Some db2 =>
            Returned [("message", Str "Payment confirmed successfully");
                      ("trade_code", Str (Deal.trade_code deal))] db2
        end
  end.

Definition release_funds (cfg : Config) (now : Timestamp) (release : AdminRelease.t)
    (db : Db) : Outcome Db (list (string * Value)) :=
  if negb (String.eqb (AdminRelease.secret release) (RELEASE_SECRET cfg))
  then Raised (HTTPException 403 "Invalid admin secret") db
  else
    let trade_code := AdminRelease.trade_code release in
    let trade_code := if startswith trade_code "#" then from_1 trade_code else trade_code in
    match deal_by_trade_code trade_code db with
    | None => Raised (HTTPException 404 "Deal not found") db
    | Some deal =>
        if negb (String.eqb (Deal.status deal) "paid")
        then Raised (HTTPException 400 "Deal payment not confirmed") db
        else
          let db1 := set_deal_status (Deal.id deal) "released" now db in
          match add_log (Deal.id deal) "Funds released"
                  [Str "Admin released ";
                   Num (Deal.usdt_amount deal - Deal.commission_amount deal)%float;
                   Str " USDT to buyer"] now db1 with
          | None => Raised IntegrityError db1
          | Some db2 =>
              Returned [("message", Str "Funds released successfully");
                        ("trade_code", Str (Deal.trade_code deal));
                        ("amount_released",
                         Num (Deal.usdt_amount deal - Deal.commission_amount deal)%float);
                        ("commission", Num (Deal.commission_amount deal))] db2
        end
    end.

(** ** The application as a transition system

    A request is served by its handler after FastAPI has validated the body
    against the schema (a rejected body never reaches the handler). *)

Inductive Request :=
| PostUsers (user : UserCreate.t)
| PostListings (listing : ListingCreate.t)
| PostDeals (fuel : nat) (deal : DealCreate.t)
| PostConfirmPayment (confirmation : PaymentConfirmation.t)
| PostAdminReleaseFunds (release : AdminRelease.t).

Definition lift {A : Type} (r : Random) (o : Outcome Db A) : Outcome (Db * Random) unit :=
  match o with
  | Returned _ db => Returned tt (db, r)
  | Raised e db => Raised e (db, r)
  | Diverged => Diverged
  end.

Definition forget {S A : Type} (o : Outcome S A) : Outcome S unit :=
  match o with
  | Returned _ s => Returned tt s
  | Raised e s => Raised e s
  | Diverged => Diverged
  end.

(** [POST /deals]: the schema first, then the handler. *)
Definition post_deals (cfg : Config) (fuel : nat) (now : Timestamp)
    (deal : DealCreate.t) (s : Db * Random) : Outcome (Db * Random) Deal.t :=
  if DealCreate.validate deal then create_deal cfg fuel now deal s
  else Raised RequestValidationError s.

Definition serve (cfg : Config) (now : Timestamp) (req : Request) (s : Db * Random)
  : Outcome (Db * Random) unit :=
  match req with
  | PostUsers user => lift (snd s) (create_user now user (fst s))
  | PostListings listing => lift (snd s) (create_listing now listing (fst s))
  | PostDeals fuel deal => forget (post_deals cfg fuel now deal s)
  | PostConfirmPayment confirmation =>
      if PaymentConfirmation.validate confirmation
      then lift (snd s) (confirm_payment now confirmation (fst s))
      else Raised RequestValidationError s
  | PostAdminReleaseFunds release =>
      if AdminRelease.validate release
      then lift (snd s) (release_funds cfg now release (fst s))
      else Raised RequestValidationError s
  end.

(** The state a finished request leaves behind. *)
Definition final {S A : Type} (o : Outcome S A) : option S :=
  match o with
  | Returned _ s => Some s
  | Raised _ s => Some s
  | Diverged => None
  end.

(** The tables right after [init_database]. *)
Definition empty_db (d : Dialect) : Db := mkDb d [] [] [] [].

(** The states the application reaches from empty tables. *)
Inductive reachable (cfg : Config) : Db * Random -> Prop :=
| reachable_init (d : Dialect) (r : Random) : reachable cfg (empty_db d, r)
| reachable_serve (s s' : Db * Random) (now : Timestamp) (req : Request) :
    reachable cfg s ->
    final (serve cfg now req s) = Some s' ->
    reachable cfg s'.

(** ** The trade-code generator *)

Definition is_upper_or_digit (c : ascii) : bool :=
  let n := nat_of_ascii c in
  ((65 <=? n) && (n <=? 90) || (48 <=? n) && (n <=? 57))%nat.

(** What the tables satisfy in every reachable state: trade codes and deal
    keys are unique, every trade code has the generator's format, and every
    listing belongs to a stored user. *)
Definition code_format (c : string) : Prop :=
  String.length c = 5%nat
  /\ Forall (fun a => In a (list_ascii_of_string (ascii_uppercase ++ digits)%string))
       (list_ascii_of_string c).

Record consistent (db : Db) : Prop := mkConsistent {
  unique_codes : NoDup (map Deal.trade_code (deals db));
  unique_keys : NoDup (map Deal.id (deals db));
  codes_generated : Forall (fun d => code_format (Deal.trade_code d)) (deals db);
  listings_owned :
    Forall (fun l => references (map User.id (users db)) (Listing.user_id l) = true)
      (listings db)
}.

(** The trade code a handler looks up for the code it was sent:
<<
    if trade_code.startswith("#"):
        trade_code = trade_code[1:]
>> *)
Definition stripped (trade_code : string) : string :=
  if startswith trade_code "#" then from_1 trade_code else trade_code.

(** The responses of [confirm_payment] and [release_funds]. *)
Definition payment_confirmed (d : Deal.t) : list (string * Value) :=
  [("message", Str "Payment confirmed successfully");
   ("trade_code", Str (Deal.trade_code d))].

Definition funds_released (d : Deal.t) : list (string * Value) :=
  [("message", Str "Funds released successfully");
   ("trade_code", Str (Deal.trade_code d));
   ("amount_released", Num (Deal.usdt_amount d - Deal.commission_amount d)%float);
   ("commission", Num (Deal.commission_amount d))].

Definition NotFound_deal : Exception := HTTPException 404 "Deal not found".
Definition InvalidState_not_pending : Exception :=
  HTTPException 400 "Deal is not in pending status".
Definition InvalidState_not_paid : Exception :=
  HTTPException 400 "Deal payment not confirmed".
Definition Forbidden : Exception := HTTPException 403 "Invalid admin secret".

(** The row [create_deal] builds for a request on [listing], before the
    database gives it a primary key and a creation time. *)
Definition new_deal (cfg : Config) (deal : DealCreate.t) (listing : Listing.t)
    (trade_code : string) : Z -> Timestamp -> Deal.t :=
  Deal.init (DealCreate.listing_id deal) (DealCreate.buyer_id deal)
    (Listing.user_id listing) (DealCreate.usdt_amount deal)
    (DealCreate.usdt_amount deal * Listing.rate listing)%float
    trade_code (ESCROW_WALLET cfg)
    (DealCreate.usdt_amount deal * (COMMISSION_PERCENT cfg / 100))%float.

(** The tables after [create_deal] stored [d] and logged it. *)
Definition with_new_deal (d : Deal.t) (now : Timestamp) (db : Db) : Db :=
  append_log (Deal.id d) "Deal created"
    [Str "Trade code: "; Str (Deal.trade_code d); Str ", Amount: ";
     Num (Deal.usdt_amount d); Str " USDT"] now
    (mkDb (dialect db) (users db) (listings db) (deals db ++ [d]) (logs db)).

(** ** Changes made to a listing outside the deal handlers

    No handler of [src/main.py] updates a listing; its owner's changes to
    [rate] and [status] reach the table from outside. *)

Definition update_listing (f : Listing.t -> Listing.t) (pk : Z) (db : Db) : Db :=
  mkDb (dialect db) (users db)
    (map (fun l => if Listing.id l =? pk then f l else l) (listings db))
    (deals db) (logs db).

Definition set_listing_status (pk : Z) (st : string) : Db -> Db :=
  update_listing (Listing.with_status st) pk.

Definition set_listing_rate (pk : Z) (rate : float) : Db -> Db :=
  update_listing (Listing.with_rate rate) pk.


Definition on_db (f : Db -> Db) (s : Db * Random) : Db * Random := (f (fst s), snd s).

(** The generator after [n] calls of [Deal.generate_trade_code]. *)
Fixpoint after_codes (n : nat) (r : Random) : Random :=
  match n with
  | O => r
  | S n' => after_codes n' (snd (Deal.generate_trade_code r))
  end.

(** The amounts of a deal, which no later request may touch. *)
Definition same_amounts (d d' : Deal.t) : Prop :=
  Deal.id d' = Deal.id d
  /\ Deal.trade_code d' = Deal.trade_code d
  /\ Deal.usdt_amount d' = Deal.usdt_amount d
  /\ Deal.etb_amount d' = Deal.etb_amount d
  /\ Deal.commission_amount d' = Deal.commission_amount d.

(** Every deal of [db] is still stored in [db'], at the same place and with
    the same amounts; [db'] may hold more deals after them. *)
Definition kept (db db' : Db) : Prop :=
  exists (old new : list Deal.t),
    deals db' = old ++ new /\ Forall2 same_amounts (deals db) old.

(** What may happen after a state: requests are served, and listing owners
    change their rates. *)
Inductive later (cfg : Config) (s : Db * Random) : Db * Random -> Prop :=
| later_now : later cfg s s
| later_serve (s1 s2 : Db * Random) (now : Timestamp) (req : Request) :
    later cfg s s1 ->
    final (serve cfg now req s1) = Some s2 ->
    later cfg s s2
| later_rate (s1 : Db * Random) (pk : Z) (rate : float) :
    later cfg s s1 ->
    later cfg s (on_db (set_listing_rate pk rate) s1).

(** ** A session of requests *)

Fixpoint run (cfg : Config) (trace : list (Timestamp * Request)) (s : Db * Random)
  : option (Db * Random) :=
  match trace with
  | [] => Some s
  | (now, req) :: rest =>
      match final (serve cfg now req s) with
      | Some s' => run cfg rest s'
      | None => None
      end
  end.

(** Scenario: a seller lists USDT at 130 ETB, a buyer opens a deal for 100
    USDT, and the generator draws the code [AB12C]. *)
Definition seller : UserCreate.t := UserCreate.mk "Abel" "abel_usdt" "seller".
Definition buyer : UserCreate.t := UserCreate.mk "Sara" "sara_etb" "buyer".
Definition offer : ListingCreate.t :=
  ListingCreate.mk "sell" 500%float 130%float "CBE" "@abel_usdt" 1.
Definition order : DealCreate.t := DealCreate.mk 100%float 1 2.

(** The generator draws [AB12C] twice and [AAAAA] from then on. *)
Definition draws_AB12C : Random :=
  mkRandom (fun n => nth n [0; 1; 27; 28; 2; 0; 1; 27; 28; 2]%nat 0%nat) 0.

Definition onboarding : list (Timestamp * Request) :=
  [(1%nat, PostUsers seller); (2%nat, PostUsers buyer); (3%nat, PostListings offer)].

Definition listed (d : Dialect) : Db * Random :=
  match run default_config onboarding (empty_db d, draws_AB12C) with
  | Some s => s
  | None => (empty_db d, draws_AB12C)
  end.

Definition after_trace (trace : list (Timestamp * Request)) (d : Dialect) : Db * Random :=
  match run default_config trace (listed d) with
  | Some s => s
  | None => listed d
  end.

Definition opened : Dialect -> Db * Random :=
  after_trace [(4%nat, PostDeals 1 order)].

Definition paid : Dialect -> Db * Random :=
  after_trace [(4%nat, PostDeals 1 order);
               (5%nat, PostConfirmPayment (PaymentConfirmation.mk "#AB12C"))].

(** A second deal on the same listing: its first draw is the code already
    taken. *)
Definition reopened : Dialect -> Db * Random :=
  after_trace [(4%nat, PostDeals 1 order); (7%nat, PostDeals 2 order)].

Definition deal_AAAAA : Deal.t :=
  Deal.mk 2 1 2 1 100%float 13000%float "AAAAA" "TXxxxxxx" "pending" 1.5%float 7%nat None.

(** The deal of the scenario as [create_deal] returns it. *)
Definition deal_AB12C : Deal.t :=
  Deal.mk 1 1 2 1 100%float 13000%float "AB12C" "TXxxxxxx" "pending" 1.5%float 4%nat None.

(** ** Read-only endpoints ([src/main.py])

    A [GET] handler returns a value or raises; it writes nothing. *)

Inductive Response (A : Type) :=
| Ok (a : A)
| Error (e : Exception).
Arguments Ok {A} a.
Arguments Error {A} e.

(** [query.offset(skip).limit(limit).all()], for [skip] and [limit] that both
    engines take as row counts (from 0 up to the largest 64-bit integer).
    Outside that range the engines differ or refuse the query: [None]. *)
Definition offset_limit {A : Type} (skip limit : Z) (rows : list A) : option (list A) :=
  if (0 <=? skip) && (skip <? 2 ^ 63) && (0 <=? limit) && (limit <? 2 ^ 63)
  then Some (firstn (Z.to_nat limit) (skipn (Z.to_nat skip) rows))
  else None.


Definition get_user (user_id : Z) (db : Db) : Response User.t :=
  match find (fun u => User.id u =? user_id) (users db) with
  | None => Error (HTTPException 404 "User not found")
  | Some user => Ok user
  end.

(** [listing_type: str = None]; [if listing_type:] is false for [None] and for
    the empty string. *)
Definition get_listings (skip limit : Z) (listing_type : option string) (db : Db)
  : option (list Listing.t) :=
  let query := filter (fun l => String.eqb (Listing.status l) "active") (listings db) in
  let query :=
    match listing_type with
    | None => query
    | Some EmptyString => query
    | Some t => filter (fun l => String.eqb (Listing.listing_type l) t) query
    end in
  offset_limit skip limit query.



Definition get_deal (trade_code : string) (db : Db) : Response Deal.t :=
  let trade_code := if startswith trade_code "#" then from_1 trade_code else trade_code in
  match deal_by_trade_code trade_code db with
  | None => Error NotFound_deal
  | Some deal => Ok deal
  end.

(** [db.query(Deal).filter(Deal.status.in_(["pending", "paid"])).all()] *)
Definition get_pending_deals (db : Db) : list Deal.t :=
  filter (fun d => existsb (String.eqb (Deal.status d)) ["pending"; "paid"]) (deals db).

(** ** The database URL ([src/database.py]) *)

(** [s[n:]] *)
Fixpoint from_ (n : nat) (s : string) : string :=
  match n, s with
  | O, _ => s
  | S n', String _ t => from_ n' t
  | S _, EmptyString => EmptyString
  end.

(** [s.replace(old, new, 1)]: the first occurrence of [old], if any. *)
Fixpoint replace_1 (s old new : string) : string :=
  if startswith s old then (new ++ from_ (String.length old) s)%string
  else
    match s with
    | EmptyString => EmptyString
    | String c t => String c (replace_1 t old new)
    end.

(** [DATABASE_URL], from the environment variable of that name when it is
    set. *)
Definition DATABASE_URL (env : option string) : string :=
  let url :=
    match env with
    | Some url => url
    | None => "sqlite:///./p2p_trading.db"
    end in
  if startswith url "postgres://"
  then replace_1 url "postgres://" "postgresql://"
  else url.

(** The engine settings chosen for a URL. *)
Definition engine_dialect (url : string) : Dialect :=
  if startswith url "postgresql://" then postgresql else sqlite.

(** ** What the tables keep telling

    The statuses a deal goes through, the log entries a deal has at each of
    them, and what holds of the tables in every reachable state beyond
    [consistent]. *)

Definition lifecycle : list string := ["pending"; "paid"; "released"].

Definition trail (k : Z) (rows : list Log.t) : list string :=
  map Log.action (filter (fun g => Log.deal_id g =? k) rows).

Definition expected_trail (st : string) : list string :=
  if String.eqb st "pending" then ["Deal created"]
  else if String.eqb st "paid" then ["Deal created"; "Payment confirmed"]
  else if String.eqb st "released"
       then ["Deal created"; "Payment confirmed"; "Funds released"]
       else [].

(** Primary keys grow along a table and start above zero. *)
Definition increasing (ids : list Z) : Prop :=
  StronglySorted Z.lt ids /\ Forall (fun k => 0 < k) ids.

Definition listed_in (rows : list Listing.t) (d : Deal.t) : Prop :=
  exists l : Listing.t,
    In l rows
    /\ Listing.id l = Deal.listing_id d
    /\ Listing.user_id l = Deal.seller_id d.

Record sound (db : Db) : Prop := mkSound {
  users_keys : increasing (map User.id (users db));
  listings_keys : increasing (map Listing.id (listings db));
  deals_keys : increasing (map Deal.id (deals db));
  logs_keys : increasing (map Log.id (logs db));
  usernames_unique : NoDup (map User.telegram_username (users db));
  listings_active : Forall (fun l => Listing.status l = "active") (listings db);
  deals_listed : Forall (listed_in (listings db)) (deals db);
  deals_status : Forall (fun d => In (Deal.status d) lifecycle) (deals db);
  deals_trail :
    Forall (fun d => trail (Deal.id d) (logs db) = expected_trail (Deal.status d))
      (deals db);
  logs_of_deals :
    Forall (fun g => In (Log.deal_id g) (map Deal.id (deals db))) (logs db)
}.

(** A status and a later status of the same deal. *)
Definition advances (st st' : string) : Prop :=
  st' = st
  \/ (st = "pending" /\ st' = "paid")
  \/ (st = "paid" /\ st' = "released")
  \/ (st = "pending" /\ st' = "released").

Definition moved_on (d d' : Deal.t) : Prop :=
  Deal.id d' = Deal.id d
  /\ Deal.trade_code d' = Deal.trade_code d
  /\ advances (Deal.status d) (Deal.status d').

(** Like [kept], for the statuses. *)
Definition progressed (db db' : Db) : Prop :=
  exists (old new : list Deal.t),
    deals db' = old ++ new /\ Forall2 moved_on (deals db) old.

(** The tables of [db'] are those of [db] with rows appended: at most one
    user, listing or deal, and at most one log entry. *)
Definition grown (db db' : Db) : Prop :=
  exists (nu : list User.t) (nl : list Listing.t) (nd : list Z) (ng : list Log.t),
    users db' = users db ++ nu
    /\ listings db' = listings db ++ nl
    /\ map Deal.id (deals db') = map Deal.id (deals db) ++ nd
    /\ logs db' = logs db ++ ng
    /\ (List.length nu + List.length nl + List.length nd <= 1)%nat
    /\ (List.length ng <= 1)%nat.

(** The figures of a stored deal are those [create_deal] computes from a
    request the schema accepts and a stored listing. *)
Definition priced (cfg : Config) (rows : list Listing.t) (d : Deal.t) : Prop :=
  (0 <? Deal.usdt_amount d)%float = true
  /\ Deal.commission_amount d
     = (Deal.usdt_amount d * (COMMISSION_PERCENT cfg / 100))%float
  /\ Deal.escrow_wallet d = ESCROW_WALLET cfg
  /\ exists l : Listing.t,
       In l rows
       /\ Listing.id l = Deal.listing_id d
       /\ Deal.etb_amount d = (Deal.usdt_amount d * Listing.rate l)%float.

(** The scenario once the admin has released the funds. *)
Definition settled : Dialect -> Db * Random :=
  after_trace
    [(4%nat, PostDeals 1 order);
     (5%nat, PostConfirmPayment (PaymentConfirmation.mk "#AB12C"));
     (6%nat, PostAdminReleaseFunds
               (AdminRelease.mk "AB12C" "p2p_secure_release_key_2024"))].

(** * Properties *)

Lemma choice_In (population : list ascii) (r : Random) :
  population <> [] -> In (fst (choice population r)) population.
Proof.
  intros Hne. unfold choice. cbn [fst].
  apply nth_In. apply Nat.mod_upper_bound.
  destruct population; [congruence | cbn; lia].
Qed.

Lemma choices_length (population : list ascii) (k : nat) :
  forall r, List.length (fst (choices population k r)) = k.
Proof.
  induction k as [|k IH]; intros r; cbn [choices].
  - reflexivity.
  - destruct (choice population r) as [c r1].
    specialize (IH r1). destruct (choices population k r1) as [cs r2].
    cbn in *. now rewrite IH.
Qed.

Lemma choices_In (population : list ascii) (k : nat) :
  population <> [] ->
  forall r, Forall (fun c => In c population) (fst (choices population k r)).
Proof.
  intros Hne. induction k as [|k IH]; intros r; cbn [choices].
  - constructor.
  - pose proof (choice_In population r Hne) as Hc.
    destruct (choice population r) as [c r1].
    specialize (IH r1). destruct (choices population k r1) as [cs r2].
    cbn in *. now constructor.
Qed.

Lemma alphabet_upper_or_digit (c : ascii) :
  In c (list_ascii_of_string (ascii_uppercase ++ digits)%string) -> is_upper_or_digit c = true.
Proof.
  assert (H : forallb is_upper_or_digit
                (list_ascii_of_string (ascii_uppercase ++ digits)%string) = true)
    by reflexivity.
  rewrite forallb_forall in H. apply H.
Qed.

Lemma length_string_of_list_ascii (cs : list ascii) :
  String.length (string_of_list_ascii cs) = List.length cs.
Proof. induction cs; cbn; congruence. Qed.

Lemma generate_trade_code_chars (r : Random) :
  Forall (fun c => In c (list_ascii_of_string (ascii_uppercase ++ digits)%string))
    (list_ascii_of_string (fst (Deal.generate_trade_code r))).
Proof.
  unfold Deal.generate_trade_code.
  pose proof (choices_In (list_ascii_of_string (ascii_uppercase ++ digits)%string) 5) as H.
  specialize (H ltac:(discriminate) r).
  destruct (choices _ 5 r) as [cs r']. cbn [fst] in *.
  now rewrite list_ascii_of_string_of_list_ascii.
Qed.

Lemma generate_trade_code_length (r : Random) :
  String.length (fst (Deal.generate_trade_code r)) = 5%nat.
Proof.
  unfold Deal.generate_trade_code.
  pose proof (choices_length (list_ascii_of_string (ascii_uppercase ++ digits)%string) 5 r) as H.
  destruct (choices _ 5 r) as [cs r']. cbn [fst] in *.
  now rewrite length_string_of_list_ascii.
Qed.

Lemma generate_trade_code_code_format (r : Random) :
  code_format (fst (Deal.generate_trade_code r)).
Proof.
  split; [apply generate_trade_code_length | apply generate_trade_code_chars].
Qed.

Lemma code_format_no_hash (c : string) :
  code_format c -> startswith c "#" = false.
Proof.
  intros [_ Hall]. destruct c as [|a c]; [reflexivity|].
  change (list_ascii_of_string (String a c)) with (a :: list_ascii_of_string c) in Hall.
  apply Forall_inv in Hall. rename Hall into Ha.
  apply alphabet_upper_or_digit in Ha.
  cbn [startswith].
  destruct (Ascii.eqb a "#") eqn:E; [|reflexivity].
  apply Ascii.eqb_eq in E. subst a. discriminate Ha.
Qed.

(** ** Lookups *)

Lemma references_In (ids : list Z) (k : Z) :
  references ids k = true <-> In k ids.
Proof.
  unfold references. rewrite existsb_exists. split.
  - intros (x & Hx & E). apply Z.eqb_eq in E. now subst.
  - intros H. exists k. split; [exact H | apply Z.eqb_refl].
Qed.

Lemma references_app (ids ids' : list Z) (k : Z) :
  references ids k = true -> references (ids ++ ids') k = true.
Proof. rewrite !references_In, in_app_iff. tauto. Qed.

Lemma next_id_above (ids : list Z) (k : Z) : In k ids -> k < next_id ids.
Proof.
  unfold next_id. induction ids as [|i ids IH]; cbn [fold_right In]; [tauto|].
  intros [->|H]; [|specialize (IH H)]; lia.
Qed.

Lemma next_id_fresh (ids : list Z) : ~ In (next_id ids) ids.
Proof. intros H. apply next_id_above in H. lia. Qed.

Lemma deal_by_trade_code_In (c : string) (db : Db) (d : Deal.t) :
  deal_by_trade_code c db = Some d -> In d (deals db) /\ Deal.trade_code d = c.
Proof.
  unfold deal_by_trade_code. intros H. apply find_some in H.
  destruct H as [Hin E]. apply String.eqb_eq in E. now split.
Qed.

Lemma deal_by_trade_code_None (c : string) (db : Db) :
  deal_by_trade_code c db = None -> ~ In c (map Deal.trade_code (deals db)).
Proof.
  unfold deal_by_trade_code. intros H Hin.
  apply in_map_iff in Hin. destruct Hin as (d & E & Hd).
  pose proof (find_none _ _ H d Hd) as F. cbn in F.
  rewrite E, String.eqb_refl in F. discriminate.
Qed.

Lemma find_unique_code (l : list Deal.t) (d : Deal.t) :
  NoDup (map Deal.trade_code l) -> In d l ->
  find (fun d' => String.eqb (Deal.trade_code d') (Deal.trade_code d)) l = Some d.
Proof.
  induction l as [|x l IH]; cbn; [tauto|].
  intros Hnd Hin. inversion Hnd as [|? ? Hx Hl]; subst.
  destruct Hin as [->|Hin].
  - now rewrite String.eqb_refl.
  - destruct (String.eqb (Deal.trade_code x) (Deal.trade_code d)) eqn:E.
    + apply String.eqb_eq in E. exfalso. apply Hx. rewrite E. now apply in_map.
    + now apply IH.
Qed.

Lemma deal_by_own_trade_code (db : Db) (d : Deal.t) :
  consistent db -> In d (deals db) ->
  deal_by_trade_code (Deal.trade_code d) db = Some d.
Proof.
  intros C Hin. apply find_unique_code; [apply (unique_codes db C) | exact Hin].
Qed.

(** ** Status updates *)

Lemma set_deal_status_codes (pk : Z) (st : string) (now : Timestamp) (db : Db) :
  map Deal.trade_code (deals (set_deal_status pk st now db))
  = map Deal.trade_code (deals db).
Proof.
  cbn. rewrite map_map. apply map_ext. intros d. now destruct (Deal.id d =? pk).
Qed.

Lemma set_deal_status_keys (pk : Z) (st : string) (now : Timestamp) (db : Db) :
  map Deal.id (deals (set_deal_status pk st now db)) = map Deal.id (deals db).
Proof.
  cbn. rewrite map_map. apply map_ext. intros d. now destruct (Deal.id d =? pk).
Qed.

Lemma set_deal_status_lookup (c : string) (st : string) (now : Timestamp)
    (db : Db) (d : Deal.t) :
  deal_by_trade_code c db = Some d ->
  deal_by_trade_code c (set_deal_status (Deal.id d) st now db)
  = Some (Deal.with_status st now d).
Proof.
  unfold deal_by_trade_code. cbn [deals set_deal_status].
  induction (deals db) as [|x l IH]; cbn; [discriminate|].
  destruct (String.eqb (Deal.trade_code x) c) eqn:E.
  - intros [= ->]. rewrite Z.eqb_refl. cbn. now rewrite E.
  - intros H. destruct (Deal.id x =? Deal.id d); cbn; rewrite E; now apply IH.
Qed.

Lemma set_deal_status_consistent (pk : Z) (st : string) (now : Timestamp) (db : Db) :
  consistent db -> consistent (set_deal_status pk st now db).
Proof.
  intros [C1 C2 C3 C4]. split.
  - now rewrite set_deal_status_codes.
  - now rewrite set_deal_status_keys.
  - cbn. rewrite Forall_map. eapply Forall_impl; [|exact C3].
    intros d Hd. now destruct (Deal.id d =? pk).
  - exact C4.
Qed.

Lemma add_log_deals (k : Z) (action : string) (notes : list Value)
    (now : Timestamp) (db db' : Db) :
  add_log k action notes now db = Some db' ->
  dialect db' = dialect db /\ users db' = users db
  /\ listings db' = listings db /\ deals db' = deals db.
Proof.
  unfold add_log. destruct (_ && _); [discriminate|].
  intros [= <-]. cbn. tauto.
Qed.

Lemma add_log_consistent (k : Z) (action : string) (notes : list Value)
    (now : Timestamp) (db db' : Db) :
  add_log k action notes now db = Some db' -> consistent db -> consistent db'.
Proof.
  intros H [C1 C2 C3 C4]. apply add_log_deals in H.
  destruct H as (_ & Hu & Hl & Hd). split; rewrite ?Hu, ?Hl, ?Hd; assumption.
Qed.

(** The log row of a stored deal is always accepted. *)
Lemma add_log_stored (k : Z) (action : string) (notes : list Value)
    (now : Timestamp) (db : Db) :
  In k (map Deal.id (deals db)) ->
  add_log k action notes now db = Some (append_log k action notes now db).
Proof.
  intros H. unfold add_log. apply references_In in H. rewrite H.
  now rewrite andb_false_r.
Qed.

(** ** Allocation of a trade code *)

Lemma unique_trade_code_spec (fuel : nat) (db : Db) :
  forall (r r' : Random) (c : string),
    unique_trade_code fuel r db = Some (c, r') ->
    code_format c /\ deal_by_trade_code c db = None.
Proof.
  induction fuel as [|fuel IH]; intros r r' c; cbn [unique_trade_code]; [discriminate|].
  pose proof (generate_trade_code_code_format r) as Hf.
  destruct (Deal.generate_trade_code r) as [c0 r0]. cbn [fst] in Hf.
  destruct (deal_by_trade_code c0 db) eqn:E.
  - apply IH.
  - intros [= <- <-]. now split.
Qed.

Lemma add_deal_spec (new : Z -> Timestamp -> Deal.t) (now : Timestamp)
    (db db1 : Db) (d : Deal.t) :
  add_deal new now db = Some (d, db1) ->
  d = new (next_id (map Deal.id (deals db))) now
  /\ db1 = mkDb (dialect db) (users db) (listings db) (deals db ++ [d]) (logs db)
  /\ ~ In (Deal.trade_code d) (map Deal.trade_code (deals db))
  /\ (foreign_keys (dialect db) = true ->
      In (Deal.listing_id d) (map Listing.id (listings db))
      /\ In (Deal.buyer_id d) (map User.id (users db))
      /\ In (Deal.seller_id d) (map User.id (users db))).
Proof.
  unfold add_deal.
  destruct (existsb _ (deals db)) eqn:E; [discriminate|].
  destruct (foreign_keys (dialect db) && negb _) eqn:F; [discriminate|].
  intros [= <- <-]. repeat split.
  - intros Hin. apply in_map_iff in Hin. destruct Hin as (d' & Hc & Hd').
    rewrite <- not_true_iff_false in E. apply E.
    apply existsb_exists. exists d'. split; [exact Hd'|]. now apply String.eqb_eq.
  - rewrite H in F. cbn in F. apply negb_false_iff in F.
    apply andb_true_iff in F. destruct F as [F _].
    apply andb_true_iff in F. destruct F as [F _]. now apply references_In.
  - rewrite H in F. cbn in F. apply negb_false_iff in F.
    apply andb_true_iff in F. destruct F as [F _].
    apply andb_true_iff in F. destruct F as [_ F]. now apply references_In.
  - rewrite H in F. cbn in F. apply negb_false_iff in F.
    apply andb_true_iff in F. destruct F as [_ F]. now apply references_In.
Qed.

Lemma add_deal_consistent (new : Z -> Timestamp -> Deal.t) (now : Timestamp)
    (db db1 : Db) (d : Deal.t) :
  add_deal new now db = Some (d, db1) ->
  Deal.id d = next_id (map Deal.id (deals db)) ->
  code_format (Deal.trade_code d) ->
  consistent db -> consistent db1.
Proof.
  intros H Hid Hf [C1 C2 C3 C4].
  apply add_deal_spec in H. destruct H as (_ & -> & Hfresh & _).
  split; cbn [deals users listings].
  - rewrite map_app. cbn [map]. apply NoDup_app; [exact C1 | repeat constructor; auto |].
    intros c Hc [<-|[]]. now apply Hfresh.
  - rewrite map_app. cbn [map]. apply NoDup_app; [exact C2 | repeat constructor; auto |].
    intros k Hk [<-|[]]. rewrite Hid in Hk. now apply next_id_fresh in Hk.
  - apply Forall_app. split; [exact C3 | constructor; [exact Hf | constructor]].
  - exact C4.
Qed.

(** ** The handlers keep the tables consistent *)

Lemma create_user_consistent (now : Timestamp) (user : UserCreate.t) (db db' : Db) :
  final (create_user now user db) = Some db' -> consistent db -> consistent db'.
Proof.
  unfold create_user. destruct (find _ (users db)); cbn [final].
  - now intros [= <-].
  - intros [= <-] [C1 C2 C3 C4]. split; cbn [deals users listings]; try assumption.
    eapply Forall_impl; [|exact C4]. intros l Hl.
    rewrite map_app. now apply references_app.
Qed.

Lemma create_listing_consistent (now : Timestamp) (listing : ListingCreate.t)
    (db db' : Db) :
  final (create_listing now listing db) = Some db' -> consistent db -> consistent db'.
Proof.
  unfold create_listing. destruct (find _ (users db)) as [u|] eqn:E; cbn [final].
  - intros [= <-] [C1 C2 C3 C4]. split; cbn [deals users listings]; try assumption.
    apply Forall_app. split; [exact C4|]. constructor; [|constructor].
    cbn [Listing.user_id]. apply find_some in E. destruct E as [Hin Hk].
    apply Z.eqb_eq in Hk. apply references_In. rewrite <- Hk. now apply in_map.
  - now intros [= <-].
Qed.

Lemma create_deal_consistent (cfg : Config) (fuel : nat) (now : Timestamp)
    (deal : DealCreate.t) (s s' : Db * Random) :
  final (create_deal cfg fuel now deal s) = Some s' ->
  consistent (fst s) -> consistent (fst s').
Proof.
  destruct s as [db r]. unfold create_deal. cbn [fst].
  destruct (listing_by_id _ db) as [listing|]; cbn [final]; [|now intros [= <-]].
  destruct (unique_trade_code fuel r db) as [[c r']|] eqn:U; cbn [final]; [|discriminate].
  apply unique_trade_code_spec in U. destruct U as [Hf _].
  destruct (add_deal _ now db) as [[d db1]|] eqn:A; cbn [final]; [|now intros [= <-]].
  intros H C.
  assert (C1 : consistent db1).
  { pose proof (add_deal_spec _ _ _ _ _ A) as (-> & _).
    eapply add_deal_consistent; [exact A | reflexivity | exact Hf | exact C]. }
  destruct (add_log _ _ _ now db1) as [db2|] eqn:L; cbn [final] in H;
    injection H as <-; cbn [fst]; [|exact C1].
  eapply add_log_consistent; eassumption.
Qed.

Lemma confirm_payment_consistent (now : Timestamp)
    (confirmation : PaymentConfirmation.t) (db db' : Db) :
  final (confirm_payment now confirmation db) = Some db' ->
  consistent db -> consistent db'.
Proof.
  unfold confirm_payment.
  destruct (deal_by_trade_code _ db) as [d|]; cbn [final]; [|now intros [= <-]].
  destruct (negb _); cbn [final]; [now intros [= <-]|].
  intros H C.
  pose proof (set_deal_status_consistent (Deal.id d) "paid" now db C) as C1.
  destruct (add_log _ _ _ now _) as [db2|] eqn:L; cbn [final] in H;
    injection H as <-; [|exact C1].
  eapply add_log_consistent; eassumption.
Qed.

Lemma release_funds_consistent (cfg : Config) (now : Timestamp)
    (release : AdminRelease.t) (db db' : Db) :
  final (release_funds cfg now release db) = Some db' ->
  consistent db -> consistent db'.
Proof.
  unfold release_funds.
  destruct (negb (String.eqb (AdminRelease.secret release) _)); cbn [final];
    [now intros [= <-]|].
  destruct (deal_by_trade_code _ db) as [d|]; cbn [final]; [|now intros [= <-]].
  destruct (negb _); cbn [final]; [now intros [= <-]|].
  intros H C.
  pose proof (set_deal_status_consistent (Deal.id d) "released" now db C) as C1.
  destruct (add_log _ _ _ now _) as [db2|] eqn:L; cbn [final] in H;
    injection H as <-; [|exact C1].
  eapply add_log_consistent; eassumption.
Qed.

Lemma final_lift {A : Type} (r : Random) (o : Outcome Db A) (s' : Db * Random) :
  final (lift r o) = Some s' -> final o = Some (fst s') /\ snd s' = r.
Proof. destruct o; cbn; [intros [= <-]; auto .. | discriminate]. Qed.

Lemma final_forget {S A : Type} (o : Outcome S A) : final (forget o) = final o.
Proof. now destruct o. Qed.

Lemma serve_consistent (cfg : Config) (now : Timestamp) (req : Request)
    (s s' : Db * Random) :
  final (serve cfg now req s) = Some s' ->
  consistent (fst s) -> consistent (fst s').
Proof.
  destruct req; cbn [serve].
  - intros H. apply final_lift in H. destruct H as [H _].
    revert H. apply create_user_consistent.
  - intros H. apply final_lift in H. destruct H as [H _].
    revert H. apply create_listing_consistent.
  - rewrite final_forget. unfold post_deals.
    destruct (DealCreate.validate deal); [apply create_deal_consistent|].
    cbn [final]. now intros [= <-].
  - destruct (PaymentConfirmation.validate confirmation);
      [|cbn [final]; now intros [= <-]].
    intros H. apply final_lift in H. destruct H as [H _].
    revert H. apply confirm_payment_consistent.
  - destruct (AdminRelease.validate release); [|cbn [final]; now intros [= <-]].
    intros H. apply final_lift in H. destruct H as [H _].
    revert H. apply release_funds_consistent.
Qed.

Lemma empty_db_consistent (d : Dialect) : consistent (empty_db d).
Proof. split; cbn; constructor. Qed.

Lemma reachable_consistent (cfg : Config) (s : Db * Random) :
  reachable cfg s -> consistent (fst s).
Proof.
  induction 1 as [d r | s s' now req _ IH H].
  - apply empty_db_consistent.
  - eapply serve_consistent; eassumption.
Qed.

(** ** Sessions *)

Lemma run_reachable (cfg : Config) (trace : list (Timestamp * Request)) :
  forall s s', reachable cfg s -> run cfg trace s = Some s' -> reachable cfg s'.
Proof.
  induction trace as [|[now req] rest IH]; intros s s' R; cbn [run].
  - now intros [= <-].
  - destruct (final (serve cfg now req s)) as [s1|] eqn:E; [|discriminate].
    apply IH. eapply reachable_serve; eassumption.
Qed.

Lemma listed_reachable (d : Dialect) : reachable default_config (listed d).
Proof.
  apply (run_reachable default_config onboarding (empty_db d, draws_AB12C));
    [apply reachable_init|].
  destruct d; vm_compute; reflexivity.
Qed.

Lemma after_trace_reachable (trace : list (Timestamp * Request)) (d : Dialect) :
  reachable default_config (after_trace trace d).
Proof.
  unfold after_trace.
  destruct (run default_config trace (listed d)) as [s|] eqn:E.
  - eapply run_reachable; [apply listed_reachable | exact E].
  - apply listed_reachable.
Qed.

(** ** The trade code that is looked up *)

Lemma stripped_hash (c : string) : stripped (String "#" c) = c.
Proof. reflexivity. Qed.

Lemma stripped_plain (c : string) : startswith c "#" = false -> stripped c = c.
Proof. unfold stripped. now intros ->. Qed.

Lemma stripped_stored (db : Db) (d : Deal.t) :
  consistent db -> In d (deals db) -> stripped (Deal.trade_code d) = Deal.trade_code d.
Proof.
  intros C Hin. apply stripped_plain, code_format_no_hash.
  pose proof (codes_generated db C) as H. rewrite Forall_forall in H. now apply H.
Qed.

Lemma deal_by_trade_code_absent (c : string) (db : Db) :
  (forall d, In d (deals db) -> Deal.trade_code d <> c) ->
  deal_by_trade_code c db = None.
Proof.
  intros H. unfold deal_by_trade_code.
  destruct (find _ (deals db)) as [d|] eqn:E; [|reflexivity].
  apply find_some in E. destruct E as [Hin E]. apply String.eqb_eq in E.
  now apply H in Hin.
Qed.

Lemma deal_by_stored_trade_code (c : string) (db : Db) (d : Deal.t) :
  consistent db -> In d (deals db) -> Deal.trade_code d = c ->
  deal_by_trade_code c db = Some d.
Proof. intros C Hin <-. now apply deal_by_own_trade_code. Qed.

Lemma same_key_same_deal (l : list Deal.t) (d d' : Deal.t) :
  NoDup (map Deal.id l) -> In d l -> In d' l -> Deal.id d' = Deal.id d -> d' = d.
Proof.
  induction l as [|x l IH]; cbn [map In]; [tauto|].
  intros Hnd Hd Hd' E. inversion Hnd as [|? ? Hx Hl]; subst.
  destruct Hd as [->|Hd], Hd' as [->|Hd']; auto.
  - exfalso. apply Hx. rewrite <- E. now apply in_map.
  - exfalso. apply Hx. rewrite E. now apply in_map.
Qed.

Lemma set_deal_status_others (st : string) (now : Timestamp) (db : Db) (d d' : Deal.t) :
  consistent db -> In d (deals db) -> In d' (deals db) -> d' <> d ->
  In d' (deals (set_deal_status (Deal.id d) st now db)).
Proof.
  intros C Hd Hd' Hne. cbn [deals set_deal_status].
  apply in_map_iff. exists d'. split; [|exact Hd'].
  destruct (Deal.id d' =? Deal.id d) eqn:E; [|reflexivity].
  apply Z.eqb_eq in E. exfalso. apply Hne.
  eapply same_key_same_deal; eauto using unique_keys.
Qed.

(** ** [confirm_payment] and [release_funds] case by case *)

Lemma stored_key (c : string) (db : Db) (d : Deal.t) (st : string) (now : Timestamp) :
  deal_by_trade_code c db = Some d ->
  In (Deal.id d) (map Deal.id (deals (set_deal_status (Deal.id d) st now db))).
Proof.
  intros H. rewrite set_deal_status_keys. apply in_map.
  now apply deal_by_trade_code_In in H.
Qed.

Lemma confirm_payment_missing (now : Timestamp) (confirmation : PaymentConfirmation.t)
    (db : Db) :
  deal_by_trade_code (stripped (PaymentConfirmation.trade_code confirmation)) db = None ->
  confirm_payment now confirmation db = Raised NotFound_deal db.
Proof. unfold confirm_payment, stripped. now intros ->. Qed.

Lemma confirm_payment_not_pending (now : Timestamp)
    (confirmation : PaymentConfirmation.t) (db : Db) (d : Deal.t) :
  deal_by_trade_code (stripped (PaymentConfirmation.trade_code confirmation)) db = Some d ->
  Deal.status d <> "pending" ->
  confirm_payment now confirmation db = Raised InvalidState_not_pending db.
Proof.
  unfold confirm_payment, stripped. intros -> Hst.
  apply String.eqb_neq in Hst. now rewrite Hst.
Qed.

Lemma confirm_payment_pending (now : Timestamp)
    (confirmation : PaymentConfirmation.t) (db : Db) (d : Deal.t) :
  deal_by_trade_code (stripped (PaymentConfirmation.trade_code confirmation)) db = Some d ->
  Deal.status d = "pending" ->
  confirm_payment now confirmation db
  = Returned (payment_confirmed d)
      (append_log (Deal.id d) "Payment confirmed"
         [Str "Seller confirmed ETB payment received"] now
         (set_deal_status (Deal.id d) "paid" now db)).
Proof.
  intros H Hst. pose proof (stored_key _ _ _ "paid" now H) as K.
  unfold confirm_payment. fold (stripped (PaymentConfirmation.trade_code confirmation)).
  rewrite H, Hst. cbn [String.eqb negb].
  change (negb ("pending" =? "pending")%string) with false. cbv iota.
  now rewrite (add_log_stored _ _ _ _ _ K).
Qed.

Lemma release_funds_forbidden (cfg : Config) (now : Timestamp)
    (release : AdminRelease.t) (db : Db) :
  AdminRelease.secret release <> RELEASE_SECRET cfg ->
  release_funds cfg now release db = Raised Forbidden db.
Proof.
  intros H. unfold release_funds. apply String.eqb_neq in H. now rewrite H.
Qed.

Lemma release_funds_missing (cfg : Config) (now : Timestamp)
    (release : AdminRelease.t) (db : Db) :
  AdminRelease.secret release = RELEASE_SECRET cfg ->
  deal_by_trade_code (stripped (AdminRelease.trade_code release)) db = None ->
  release_funds cfg now release db = Raised NotFound_deal db.
Proof.
  unfold release_funds, stripped. intros -> ->. now rewrite String.eqb_refl.
Qed.

Lemma release_funds_not_paid (cfg : Config) (now : Timestamp)
    (release : AdminRelease.t) (db : Db) (d : Deal.t) :
  AdminRelease.secret release = RELEASE_SECRET cfg ->
  deal_by_trade_code (stripped (AdminRelease.trade_code release)) db = Some d ->
  Deal.status d <> "paid" ->
  release_funds cfg now release db = Raised InvalidState_not_paid db.
Proof.
  unfold release_funds, stripped. intros -> -> Hst.
  rewrite String.eqb_refl. apply String.eqb_neq in Hst. now rewrite Hst.
Qed.

Lemma release_funds_paid (cfg : Config) (now : Timestamp)
    (release : AdminRelease.t) (db : Db) (d : Deal.t) :
  AdminRelease.secret release = RELEASE_SECRET cfg ->
  deal_by_trade_code (stripped (AdminRelease.trade_code release)) db = Some d ->
  Deal.status d = "paid" ->
  release_funds cfg now release db
  = Returned (funds_released d)
      (append_log (Deal.id d) "Funds released"
         [Str "Admin released ";
          Num (Deal.usdt_amount d - Deal.commission_amount d)%float;
          Str " USDT to buyer"] now
         (set_deal_status (Deal.id d) "released" now db)).
Proof.
  intros Hs H Hst. pose proof (stored_key _ _ _ "released" now H) as K.
  unfold release_funds. fold (stripped (AdminRelease.trade_code release)).
  rewrite Hs, String.eqb_refl, H, Hst. cbn [negb].
  change (negb ("paid" =? "paid")%string) with false. cbv iota.
  now rewrite (add_log_stored _ _ _ _ _ K).
Qed.

(** * The Deal state machine *)

(** C1. In every reachable state and for every stored Deal,
    [confirm_payment] on the Deal's trade code succeeds exactly when the
    Deal's status is ["pending"]: it then returns, the Deal is found with
    status ["paid"] (every other Deal is as before), and a second call on the
    same code fails with InvalidState (HTTP 400).  When the status is
    anything other than ["pending"] the call fails with InvalidState and the
    tables are left unchanged. *)
Theorem confirm_payment_only_from_pending :
  forall (cfg : Config) (s : Db * Random),
    reachable cfg s ->
    forall d : Deal.t,
      In d (deals (fst s)) ->
      forall now now' : Timestamp,
        (Deal.status d = "pending" ->
         exists db' : Db,
           confirm_payment now (PaymentConfirmation.mk (Deal.trade_code d)) (fst s)
           = Returned (payment_confirmed d) db'
           /\ deal_by_trade_code (Deal.trade_code d) db'
              = Some (Deal.with_status "paid" now d)
           /\ (forall d' : Deal.t, In d' (deals (fst s)) -> d' <> d -> In d' (deals db'))
           /\ confirm_payment now' (PaymentConfirmation.mk (Deal.trade_code d)) db'
              = Raised InvalidState_not_pending db')
        /\ (Deal.status d <> "pending" ->
            confirm_payment now (PaymentConfirmation.mk (Deal.trade_code d)) (fst s)
            = Raised InvalidState_not_pending (fst s)).
Proof.
  intros cfg [db r] R d Hin now now'. cbn [fst] in *.
  pose proof (reachable_consistent cfg _ R) as C. cbn [fst] in C.
  pose proof (stripped_stored db d C Hin) as Hs.
  pose proof (deal_by_own_trade_code db d C Hin) as Hl.
  split.
  - intros Hst. eexists. split; [|split; [|split]].
    + apply confirm_payment_pending; [|exact Hst].
      cbn [PaymentConfirmation.trade_code]. now rewrite Hs.
    + unfold deal_by_trade_code, append_log. cbn [deals].
      apply (set_deal_status_lookup _ "paid" now db d Hl).
    + intros d' Hd' Hne. unfold append_log. cbn [deals].
      now apply set_deal_status_others.
    + apply confirm_payment_not_pending with (d := Deal.with_status "paid" now d).
      * cbn [PaymentConfirmation.trade_code]. rewrite Hs.
        unfold deal_by_trade_code, append_log. cbn [deals].
        apply (set_deal_status_lookup _ "paid" now db d Hl).
      * discriminate.
  - intros Hst. apply confirm_payment_not_pending with (d := d); [|exact Hst].
    cbn [PaymentConfirmation.trade_code]. now rewrite Hs.
Qed.

Lemma confirm_payment_only_from_pending_witness :
  exists db' : Db,
    confirm_payment 5 (PaymentConfirmation.mk "AB12C") (fst (opened sqlite))
    = Returned (payment_confirmed deal_AB12C) db'
    /\ deal_by_trade_code "AB12C" db' = Some (Deal.with_status "paid" 5 deal_AB12C)
    /\ (forall d' : Deal.t,
          In d' (deals (fst (opened sqlite))) -> d' <> deal_AB12C -> In d' (deals db'))
    /\ confirm_payment 6 (PaymentConfirmation.mk "AB12C") db'
       = Raised InvalidState_not_pending db'.
Proof.
  assert (Hin : In deal_AB12C (deals (fst (opened sqlite)))) by (vm_compute; auto).
  exact (proj1 (confirm_payment_only_from_pending default_config (opened sqlite)
                  (after_trace_reachable _ sqlite) deal_AB12C Hin 5%nat 6%nat)
           eq_refl).
Defined.

(** C2. In every reachable state, [release_funds] called with the release
    secret fails with NotFound (HTTP 404) when no Deal has the trade code
    looked up, fails with InvalidState (HTTP 400) when that Deal's status is
    not ["paid"], and otherwise succeeds: the Deal's status becomes
    ["released"] and the response carries the trade code, the amount released
    [usdt_amount - commission_amount] and the commission. *)
Theorem release_funds_only_from_paid :
  forall (cfg : Config) (s : Db * Random),
    reachable cfg s ->
    forall (now : Timestamp) (release : AdminRelease.t),
      AdminRelease.secret release = RELEASE_SECRET cfg ->
      ((forall d : Deal.t,
          In d (deals (fst s)) ->
          Deal.trade_code d <> stripped (AdminRelease.trade_code release)) ->
       release_funds cfg now release (fst s) = Raised NotFound_deal (fst s))
      /\ (forall d : Deal.t,
            In d (deals (fst s)) ->
            Deal.trade_code d = stripped (AdminRelease.trade_code release) ->
            (Deal.status d = "paid" ->
             exists db' : Db,
               release_funds cfg now release (fst s)
               = Returned
                   [("message", Str "Funds released successfully");
                    ("trade_code", Str (Deal.trade_code d));
                    ("amount_released",
                     Num (Deal.usdt_amount d - Deal.commission_amount d)%float);
                    ("commission", Num (Deal.commission_amount d))] db'
               /\ deal_by_trade_code (Deal.trade_code d) db'
                  = Some (Deal.with_status "released" now d)
               /\ (forall d' : Deal.t,
                     In d' (deals (fst s)) -> d' <> d -> In d' (deals db')))
            /\ (Deal.status d <> "paid" ->
                release_funds cfg now release (fst s)
                = Raised InvalidState_not_paid (fst s))).
Proof.
  intros cfg [db r] R now release Hsec. cbn [fst] in *.
  pose proof (reachable_consistent cfg _ R) as C. cbn [fst] in C.
  split.
  - intros Hnone. apply release_funds_missing; [exact Hsec|].
    now apply deal_by_trade_code_absent.
  - intros d Hin Hcode.
    pose proof (deal_by_stored_trade_code _ db d C Hin Hcode) as Hl.
    split.
    + intros Hst. eexists. split; [|split].
      * apply (release_funds_paid cfg now release db d Hsec Hl Hst).
      * unfold deal_by_trade_code, append_log. cbn [deals].
        apply (set_deal_status_lookup _ "released" now db d).
        now apply deal_by_own_trade_code.
      * intros d' Hd' Hne. unfold append_log. cbn [deals].
        now apply set_deal_status_others.
    + intros Hst. now apply release_funds_not_paid with (d := d).
Qed.

Lemma release_funds_only_from_paid_witness :
  exists db' : Db,
    release_funds default_config 6
      (AdminRelease.mk "AB12C" "p2p_secure_release_key_2024") (fst (paid sqlite))
    = Returned
        [("message", Str "Funds released successfully");
         ("trade_code", Str "AB12C");
         ("amount_released", Num 98.5%float);
         ("commission", Num 1.5%float)] db'
    /\ deal_by_trade_code "AB12C" db'
       = Some (Deal.with_status "released" 6 (Deal.with_status "paid" 5 deal_AB12C))
    /\ (forall d' : Deal.t,
          In d' (deals (fst (paid sqlite))) ->
          d' <> Deal.with_status "paid" 5 deal_AB12C -> In d' (deals db')).
Proof.
  assert (Hin : In (Deal.with_status "paid" 5 deal_AB12C) (deals (fst (paid sqlite))))
    by (vm_compute; auto).
  exact (proj1 (proj2 (release_funds_only_from_paid default_config (paid sqlite)
                         (after_trace_reachable _ sqlite) 6%nat
                         (AdminRelease.mk "AB12C" "p2p_secure_release_key_2024")
                         eq_refl)
                  (Deal.with_status "paid" 5 deal_AB12C) Hin eq_refl)
           eq_refl).
Defined.

(** C3. For every trade code sent and every secret different from the
    release secret, [release_funds] fails with Forbidden (HTTP 403) and the
    tables, hence every Deal's status, are left unchanged; the request as a
    whole leaves the state as it was. *)
Theorem release_funds_wrong_secret :
  forall (cfg : Config) (now : Timestamp) (release : AdminRelease.t) (db : Db),
    AdminRelease.secret release <> RELEASE_SECRET cfg ->
    release_funds cfg now release db = Raised Forbidden db
    /\ forall r : Random,
         final (serve cfg now (PostAdminReleaseFunds release) (db, r)) = Some (db, r).
Proof.
  intros cfg now release db H. split; [now apply release_funds_forbidden|].
  intros r. cbn [serve fst snd]. destruct (AdminRelease.validate release); [|reflexivity].
  now rewrite release_funds_forbidden.
Qed.

Lemma release_funds_wrong_secret_witness :
  release_funds default_config 6 (AdminRelease.mk "AB12C" "letmein") (fst (paid sqlite))
  = Raised Forbidden (fst (paid sqlite))
  /\ release_funds default_config 6 (AdminRelease.mk "ZZZZZ" "letmein") (fst (paid sqlite))
     = Raised Forbidden (fst (paid sqlite))
  /\ release_funds default_config 6 (AdminRelease.mk "" "") (fst (paid sqlite))
     = Raised Forbidden (fst (paid sqlite)).
Proof.
  split; [|split];
    apply (fun release H =>
             proj1 (release_funds_wrong_secret default_config 6%nat release
                      (fst (paid sqlite)) H));
    discriminate.
Defined.

(** * The trade-code generator *)

(** C6. Every code returned by the trade-code generator has length exactly
    5, and each of its characters belongs to the alphabet the generator
    draws from, which has 36 symbols, all of them uppercase letters [A-Z] or
    digits [0-9]. *)
Theorem generate_trade_code_format :
  forall r : Random,
    String.length (fst (Deal.generate_trade_code r)) = 5%nat
    /\ Forall (fun c => In c (list_ascii_of_string (ascii_uppercase ++ digits)%string)
                        /\ is_upper_or_digit c = true)
         (list_ascii_of_string (fst (Deal.generate_trade_code r)))
    /\ List.length (list_ascii_of_string (ascii_uppercase ++ digits)%string) = 36%nat.
Proof.
  intros r. split; [|split].
  - apply generate_trade_code_length.
  - eapply Forall_impl; [|apply generate_trade_code_chars].
    intros c Hc. split; [exact Hc | now apply alphabet_upper_or_digit].
  - reflexivity.
Qed.

(** * Trade codes sent with a leading [#] *)

(** C7. [confirm_payment] and [release_funds] strip exactly one leading
    ["#"] before the lookup: sent ["#" ++ code], they look up [code] (even
    when [code] itself starts with ["#"]), act on the Deal found there and
    fail with NotFound when there is none; a code without a leading ["#"] is
    looked up as it is, so it is served like the same code with one ["#"] in
    front. *)
Theorem leading_hash_stripped_once :
  forall (cfg : Config) (now : Timestamp) (db : Db) (code : string),
    (forall d : Deal.t,
       deal_by_trade_code code db = Some d ->
       (Deal.status d = "pending" ->
        exists db' : Db,
          confirm_payment now (PaymentConfirmation.mk (String "#" code)) db
          = Returned (payment_confirmed d) db'
          /\ deal_by_trade_code code db' = Some (Deal.with_status "paid" now d))
       /\ (Deal.status d <> "pending" ->
           confirm_payment now (PaymentConfirmation.mk (String "#" code)) db
           = Raised InvalidState_not_pending db)
       /\ (Deal.status d = "paid" ->
           exists db' : Db,
             release_funds cfg now (AdminRelease.mk (String "#" code) (RELEASE_SECRET cfg)) db
             = Returned (funds_released d) db'
             /\ deal_by_trade_code code db' = Some (Deal.with_status "released" now d))
       /\ (Deal.status d <> "paid" ->
           release_funds cfg now (AdminRelease.mk (String "#" code) (RELEASE_SECRET cfg)) db
           = Raised InvalidState_not_paid db))
    /\ (deal_by_trade_code code db = None ->
        confirm_payment now (PaymentConfirmation.mk (String "#" code)) db
        = Raised NotFound_deal db
        /\ release_funds cfg now (AdminRelease.mk (String "#" code) (RELEASE_SECRET cfg)) db
           = Raised NotFound_deal db)
    /\ (startswith code "#" = false ->
        confirm_payment now (PaymentConfirmation.mk code) db
        = confirm_payment now (PaymentConfirmation.mk (String "#" code)) db
        /\ forall secret : string,
             release_funds cfg now (AdminRelease.mk code secret) db
             = release_funds cfg now (AdminRelease.mk (String "#" code) secret) db).
Proof.
  intros cfg now db code. split; [|split].
  - intros d Hl. repeat split.
    + intros Hst. eexists. split.
      * now apply confirm_payment_pending.
      * unfold deal_by_trade_code, append_log. cbn [deals].
        now apply (set_deal_status_lookup code "paid" now db d).
    + intros Hst. now apply confirm_payment_not_pending with (d := d).
    + intros Hst. eexists. split.
      * now apply release_funds_paid.
      * unfold deal_by_trade_code, append_log. cbn [deals].
        now apply (set_deal_status_lookup code "released" now db d).
    + intros Hst. now apply release_funds_not_paid with (d := d).
  - intros Hl. split.
    + now apply confirm_payment_missing.
    + now apply release_funds_missing.
  - intros Hp. split.
    + unfold confirm_payment. cbn [PaymentConfirmation.trade_code].
      fold (stripped code). fold (stripped (String "#" code)).
      now rewrite stripped_hash, (stripped_plain code Hp).
    + intros secret. unfold release_funds. cbn [AdminRelease.trade_code].
      fold (stripped code). fold (stripped (String "#" code)).
      now rewrite stripped_hash, (stripped_plain code Hp).
Qed.

Lemma leading_hash_stripped_once_witness :
  (exists db' : Db,
     confirm_payment 5 (PaymentConfirmation.mk "#AB12C") (fst (opened sqlite))
     = Returned (payment_confirmed deal_AB12C) db'
     /\ deal_by_trade_code "AB12C" db' = Some (Deal.with_status "paid" 5 deal_AB12C))
  /\ confirm_payment 5 (PaymentConfirmation.mk "##AB12C") (fst (opened sqlite))
     = Raised NotFound_deal (fst (opened sqlite))
  /\ confirm_payment 5 (PaymentConfirmation.mk "AB12C") (fst (opened sqlite))
     = confirm_payment 5 (PaymentConfirmation.mk "#AB12C") (fst (opened sqlite)).
Proof.
  split; [|split].
  - exact (proj1 (proj1 (leading_hash_stripped_once default_config 5%nat
                           (fst (opened sqlite)) "AB12C")
                    deal_AB12C eq_refl) eq_refl).
  - exact (proj1 (proj1 (proj2 (leading_hash_stripped_once default_config 5%nat
                                  (fst (opened sqlite)) "#AB12C")) eq_refl)).
  - exact (proj1 (proj2 (proj2 (leading_hash_stripped_once default_config 5%nat
                                  (fst (opened sqlite)) "AB12C")) eq_refl)).
Defined.

(** * Trade codes are never shared *)

Lemma same_amounts_refl (d : Deal.t) : same_amounts d d.
Proof. now repeat split. Qed.

Lemma Forall2_same_amounts_refl (l : list Deal.t) : Forall2 same_amounts l l.
Proof. induction l; constructor; auto using same_amounts_refl. Qed.

Lemma kept_refl (db : Db) : kept db db.
Proof.
  exists (deals db), []. split; [now rewrite app_nil_r|].
  apply Forall2_same_amounts_refl.
Qed.

Lemma kept_same_deals (db db' : Db) : deals db' = deals db -> kept db db'.
Proof.
  intros E. exists (deals db), []. split; [now rewrite app_nil_r|].
  apply Forall2_same_amounts_refl.
Qed.

Lemma kept_trans (db1 db2 db3 : Db) : kept db1 db2 -> kept db2 db3 -> kept db1 db3.
Proof.
  intros (o1 & n1 & E1 & F1) (o2 & n2 & E2 & F2).
  rewrite E1 in F2. apply Forall2_app_inv_l in F2.
  destruct F2 as (o2a & o2b & Fa & Fb & ->).
  exists o2a, (o2b ++ n2). split; [now rewrite E2, app_assoc|].
  clear - F1 Fa. revert o2a Fa.
  induction F1 as [|d d1 l l1 H _ IH]; intros o2a Fa; inversion Fa; subst;
    constructor; auto.
  destruct H as (? & ? & ? & ? & ?), H2 as (? & ? & ? & ? & ?).
  repeat split; congruence.
Qed.

Lemma kept_set_deal_status (pk : Z) (st : string) (now : Timestamp) (db : Db) :
  kept db (set_deal_status pk st now db).
Proof.
  exists (deals (set_deal_status pk st now db)), []. split; [now rewrite app_nil_r|].
  cbn [deals set_deal_status]. induction (deals db) as [|d l IH]; constructor; auto.
  destruct (Deal.id d =? pk); now repeat split.
Qed.

Lemma kept_add_log (k : Z) (action : string) (notes : list Value) (now : Timestamp)
    (db db' : Db) :
  add_log k action notes now db = Some db' -> kept db db'.
Proof. intros H. apply add_log_deals in H. now apply kept_same_deals. Qed.

Lemma kept_add_deal (new : Z -> Timestamp -> Deal.t) (now : Timestamp)
    (db db1 : Db) (d : Deal.t) :
  add_deal new now db = Some (d, db1) -> kept db db1.
Proof.
  intros H. apply add_deal_spec in H. destruct H as (_ & -> & _).
  exists (deals db), [d]. split; [reflexivity | apply Forall2_same_amounts_refl].
Qed.

Lemma kept_codes (db db' : Db) :
  kept db db' ->
  exists rest : list string,
    map Deal.trade_code (deals db') = map Deal.trade_code (deals db) ++ rest.
Proof.
  intros (old & new & E & F). exists (map Deal.trade_code new).
  rewrite E, map_app. clear E.
  assert (Hold : map Deal.trade_code old = map Deal.trade_code (deals db)).
  { induction F as [|d d' l l' H _ IH]; [reflexivity|].
    cbn [map]. destruct H as (_ & -> & _). now rewrite IH. }
  now rewrite Hold.
Qed.

Lemma kept_In (db db' : Db) (d : Deal.t) :
  kept db db' -> In d (deals db) ->
  exists d' : Deal.t, In d' (deals db') /\ same_amounts d d'.
Proof.
  intros (old & new & E & F) Hin. rewrite E. clear E.
  induction F as [|x x' l l' H _ IH]; [destruct Hin|].
  destruct Hin as [->|Hin].
  - exists x'. split; [now left | exact H].
  - destruct (IH Hin) as (d' & Hd' & Hs). exists d'. split; [now right | exact Hs].
Qed.

Lemma create_deal_kept (cfg : Config) (fuel : nat) (now : Timestamp)
    (deal : DealCreate.t) (s s' : Db * Random) :
  final (create_deal cfg fuel now deal s) = Some s' -> kept (fst s) (fst s').
Proof.
  destruct s as [db r]. unfold create_deal. cbn [fst].
  destruct (listing_by_id _ db) as [listing|]; cbn [final];
    [|intros [= <-]; apply kept_refl].
  destruct (unique_trade_code fuel r db) as [[c r']|]; cbn [final]; [|discriminate].
  destruct (add_deal _ now db) as [[d db1]|] eqn:A; cbn [final];
    [|intros [= <-]; apply kept_refl].
  apply kept_add_deal in A.
  destruct (add_log _ _ _ now db1) as [db2|] eqn:L; cbn [final];
    intros [= <-]; cbn [fst]; [|exact A].
  eapply kept_trans; [exact A | eapply kept_add_log; exact L].
Qed.

Lemma confirm_payment_kept (now : Timestamp) (confirmation : PaymentConfirmation.t)
    (db db' : Db) :
  final (confirm_payment now confirmation db) = Some db' -> kept db db'.
Proof.
  unfold confirm_payment.
  destruct (deal_by_trade_code _ db) as [d|]; cbn [final];
    [|intros [= <-]; apply kept_refl].
  destruct (negb _); cbn [final]; [intros [= <-]; apply kept_refl|].
  pose proof (kept_set_deal_status (Deal.id d) "paid" now db) as K.
  destruct (add_log _ _ _ now _) as [db2|] eqn:L; cbn [final];
    intros [= <-]; [|exact K].
  eapply kept_trans; [exact K | eapply kept_add_log; exact L].
Qed.

Lemma release_funds_kept (cfg : Config) (now : Timestamp) (release : AdminRelease.t)
    (db db' : Db) :
  final (release_funds cfg now release db) = Some db' -> kept db db'.
Proof.
  unfold release_funds.
  destruct (negb (String.eqb (AdminRelease.secret release) _)); cbn [final];
    [intros [= <-]; apply kept_refl|].
  destruct (deal_by_trade_code _ db) as [d|]; cbn [final];
    [|intros [= <-]; apply kept_refl].
  destruct (negb _); cbn [final]; [intros [= <-]; apply kept_refl|].
  pose proof (kept_set_deal_status (Deal.id d) "released" now db) as K.
  destruct (add_log _ _ _ now _) as [db2|] eqn:L; cbn [final];
    intros [= <-]; [|exact K].
  eapply kept_trans; [exact K | eapply kept_add_log; exact L].
Qed.

Lemma serve_kept (cfg : Config) (now : Timestamp) (req : Request) (s s' : Db * Random) :
  final (serve cfg now req s) = Some s' -> kept (fst s) (fst s').
Proof.
  destruct req; cbn [serve].
  - intros H. apply final_lift in H. destruct H as [H _]. revert H.
    unfold create_user. destruct (find _ (users (fst s))); cbn [final];
      intros [= <-]; now apply kept_same_deals.
  - intros H. apply final_lift in H. destruct H as [H _]. revert H.
    unfold create_listing. destruct (find _ (users (fst s))); cbn [final];
      intros [= <-]; now apply kept_same_deals.
  - rewrite final_forget. unfold post_deals.
    destruct (DealCreate.validate deal); [apply create_deal_kept|].
    cbn [final]. intros [= <-]. apply kept_refl.
  - destruct (PaymentConfirmation.validate confirmation);
      [|cbn [final]; intros [= <-]; apply kept_refl].
    intros H. apply final_lift in H. destruct H as [H _].
    revert H. apply confirm_payment_kept.
  - destruct (AdminRelease.validate release);
      [|cbn [final]; intros [= <-]; apply kept_refl].
    intros H. apply final_lift in H. destruct H as [H _].
    revert H. apply release_funds_kept.
Qed.

(** The code found is the first draw that no deal holds. *)
Lemma unique_trade_code_first_unused (fuel : nat) (db : Db) :
  forall (r r' : Random) (c : string),
    unique_trade_code fuel r db = Some (c, r') ->
    exists n : nat,
      (n < fuel)%nat
      /\ Deal.generate_trade_code (after_codes n r) = (c, r')
      /\ (forall m : nat,
            (m < n)%nat ->
            In (fst (Deal.generate_trade_code (after_codes m r)))
              (map Deal.trade_code (deals db)))
      /\ ~ In c (map Deal.trade_code (deals db)).
Proof.
  induction fuel as [|fuel IH]; intros r r' c; cbn [unique_trade_code]; [discriminate|].
  destruct (Deal.generate_trade_code r) as [c0 r0] eqn:G.
  destruct (deal_by_trade_code c0 db) as [d0|] eqn:E.
  - intros H. destruct (IH _ _ _ H) as (n & Hn & Hg & Hheld & Hfree).
    exists (S n). cbn [after_codes]. rewrite G. cbn [snd].
    split; [lia|]. split; [exact Hg|]. split; [|exact Hfree].
    intros [|m] Hm.
    + cbn [after_codes]. rewrite G. cbn [fst].
      apply deal_by_trade_code_In in E. destruct E as [Hin <-]. now apply in_map.
    + cbn [after_codes]. rewrite G. cbn [snd]. apply Hheld. lia.
  - intros [= <- <-]. exists 0%nat. cbn [after_codes].
    split; [lia|]. split; [exact G|]. split; [intros m Hm; lia|].
    now apply deal_by_trade_code_None.
Qed.

(** Conversely, the loop ends as soon as an unused code is drawn. *)
Lemma unique_trade_code_enough_fuel (n : nat) (db : Db) :
  forall (r : Random) (fuel : nat),
    (forall m : nat,
       (m < n)%nat ->
       In (fst (Deal.generate_trade_code (after_codes m r)))
         (map Deal.trade_code (deals db))) ->
    ~ In (fst (Deal.generate_trade_code (after_codes n r)))
        (map Deal.trade_code (deals db)) ->
    (n < fuel)%nat ->
    unique_trade_code fuel r db = Some (Deal.generate_trade_code (after_codes n r)).
Proof.
  induction n as [|n IH]; intros r fuel Hheld Hfree Hfuel;
    (destruct fuel as [|fuel]; [lia|]); cbn [unique_trade_code after_codes] in *.
  - destruct (Deal.generate_trade_code r) as [c0 r0] eqn:G. cbn [fst] in Hfree.
    destruct (deal_by_trade_code c0 db) as [d0|] eqn:E; [|reflexivity].
    apply deal_by_trade_code_In in E. destruct E as [Hin <-].
    exfalso. apply Hfree. now apply in_map.
  - pose proof (Hheld 0%nat ltac:(lia)) as H0. cbn [after_codes] in H0.
    destruct (Deal.generate_trade_code r) as [c0 r0] eqn:G. cbn [fst snd] in *.
    destruct (deal_by_trade_code c0 db) as [d0|] eqn:E.
    + apply IH; [|exact Hfree|lia].
      intros m Hm. specialize (Hheld (S m) ltac:(lia)).
      cbn [after_codes] in Hheld. now rewrite G in Hheld.
    + apply deal_by_trade_code_None in E. contradiction.
Qed.

(** ** [create_deal] case by case *)

Lemma listing_by_id_In (i : Z) (db : Db) (listing : Listing.t) :
  listing_by_id i db = Some listing ->
  In listing (listings db) /\ Listing.id listing = i.
Proof.
  unfold listing_by_id. intros H. apply find_some in H.
  destruct H as [Hin E]. apply Z.eqb_eq in E. now split.
Qed.



Lemma create_deal_returned (cfg : Config) (fuel : nat) (now : Timestamp)
    (deal : DealCreate.t) (db : Db) (r : Random) (d : Deal.t) (s' : Db * Random) :
  create_deal cfg fuel now deal (db, r) = Returned d s' ->
  exists (listing : Listing.t) (c : string) (r' : Random),
    listing_by_id (DealCreate.listing_id deal) db = Some listing
    /\ unique_trade_code fuel r db = Some (c, r')
    /\ d = new_deal cfg deal listing c (next_id (map Deal.id (deals db))) now
    /\ s' = (with_new_deal d now db, r').
Proof.
  unfold create_deal.
  destruct (listing_by_id _ db) as [listing|]; [|discriminate].
  destruct (unique_trade_code fuel r db) as [[c r']|]; [|discriminate].
  fold (new_deal cfg deal listing c).
  destruct (add_deal _ now db) as [[d1 db1]|] eqn:A; [|discriminate].
  apply add_deal_spec in A. destruct A as (Hd & Hdb & _).
  unfold add_log.
  destruct (foreign_keys (dialect db1) && _); [discriminate|].
  intros [= <- <-]. exists listing, c, r'. repeat split; [exact Hd|].
  unfold with_new_deal. rewrite Hdb. f_equal. f_equal.
  rewrite Hd. reflexivity.
Qed.



(** C4. In every reachable state no two stored Deals share a trade code.
    Serving a request never removes a Deal nor changes a stored code: the
    codes after the request are the codes before it, followed by any new
    one.  A Deal returned by [create_deal] is appended to the table with a
    code held by no Deal stored before: the first code, among the successive
    draws of the generator, that no stored Deal holds.  The loop that draws
    the codes ends, with that code, as soon as such a code is drawn. *)
Theorem trade_codes_never_shared :
  forall (cfg : Config) (s : Db * Random),
    reachable cfg s ->
    NoDup (map Deal.trade_code (deals (fst s)))
    /\ (forall (now : Timestamp) (req : Request) (s' : Db * Random),
          final (serve cfg now req s) = Some s' ->
          exists rest : list string,
            map Deal.trade_code (deals (fst s'))
            = map Deal.trade_code (deals (fst s)) ++ rest)
    /\ (forall (fuel : nat) (now : Timestamp) (deal : DealCreate.t)
               (d : Deal.t) (s' : Db * Random),
          create_deal cfg fuel now deal s = Returned d s' ->
          deals (fst s') = deals (fst s) ++ [d]
          /\ ~ In (Deal.trade_code d) (map Deal.trade_code (deals (fst s)))
          /\ exists n : nat,
               (n < fuel)%nat
               /\ Deal.generate_trade_code (after_codes n (snd s))
                  = (Deal.trade_code d, snd s')
               /\ forall m : nat,
                    (m < n)%nat ->
                    In (fst (Deal.generate_trade_code (after_codes m (snd s))))
                      (map Deal.trade_code (deals (fst s))))
    /\ (forall n fuel : nat,
          (forall m : nat,
             (m < n)%nat ->
             In (fst (Deal.generate_trade_code (after_codes m (snd s))))
               (map Deal.trade_code (deals (fst s)))) ->
          ~ In (fst (Deal.generate_trade_code (after_codes n (snd s))))
              (map Deal.trade_code (deals (fst s))) ->
          (n < fuel)%nat ->
          unique_trade_code fuel (snd s) (fst s)
          = Some (Deal.generate_trade_code (after_codes n (snd s)))).
Proof.
  intros cfg s R. split; [|split; [|split]]; [| | |intros n fuel; apply unique_trade_code_enough_fuel].
  - apply (unique_codes _ (reachable_consistent cfg s R)).
  - intros now req s' H. apply kept_codes. revert H. apply serve_kept.
  - intros fuel now deal d s' H. destruct s as [db r]. cbn [fst snd].
    apply create_deal_returned in H.
    destruct H as (listing & c & r' & _ & Hu & Hd & ->).
    apply unique_trade_code_first_unused in Hu.
    destruct Hu as (n & Hn & Hg & Hheld & Hfree).
    assert (Hc : Deal.trade_code d = c) by now rewrite Hd.
    cbn [fst snd]. rewrite Hc. repeat split; [exact Hfree|].
    exists n. repeat split; assumption.
Qed.

Lemma trade_codes_never_shared_witness :
  NoDup (map Deal.trade_code (deals (fst (opened sqlite))))
  /\ deals (fst (reopened sqlite)) = deals (fst (opened sqlite)) ++ [deal_AAAAA]
  /\ ~ In "AAAAA" (map Deal.trade_code (deals (fst (opened sqlite))))
  /\ exists n : nat,
       (n < 2)%nat
       /\ Deal.generate_trade_code (after_codes n (snd (opened sqlite)))
          = ("AAAAA", snd (reopened sqlite))
       /\ forall m : nat,
            (m < n)%nat ->
            In (fst (Deal.generate_trade_code (after_codes m (snd (opened sqlite)))))
              (map Deal.trade_code (deals (fst (opened sqlite)))).
Proof.
  assert (H : create_deal default_config 2 7 order (opened sqlite)
              = Returned deal_AAAAA (reopened sqlite)) by (vm_compute; reflexivity).
  pose proof (trade_codes_never_shared default_config (opened sqlite)
                (after_trace_reachable _ sqlite)) as T.
  exact (conj (proj1 T)
           (proj1 (proj2 (proj2 T)) 2%nat 7%nat order deal_AAAAA (reopened sqlite) H)).
Defined.

(** * Amounts are fixed at creation *)

Lemma later_kept (cfg : Config) (s s' : Db * Random) :
  later cfg s s' -> kept (fst s) (fst s').
Proof.
  induction 1 as [|s1 s2 now req _ IH H|s1 pk rate _ IH].
  - apply kept_refl.
  - eapply kept_trans; [exact IH | eapply serve_kept; exact H].
  - eapply kept_trans; [exact IH | now apply kept_same_deals].
Qed.

(** C5. A Deal returned by [create_deal] carries the requested
    [usdt_amount], [etb_amount = usdt_amount * listing.rate] and
    [commission_amount = usdt_amount * (COMMISSION_PERCENT / 100)] in binary64
    arithmetic, for the listing as it is at that moment; with rate 130,
    amount 100 and a commission of 1.5 percent these are 13000 and 1.5.
    Whatever happens later (requests served, rates of listings changed), the
    Deal is still stored with the same amounts. *)
Theorem deal_amounts_fixed_at_creation :
  forall (cfg : Config) (fuel : nat) (now : Timestamp) (deal : DealCreate.t)
         (s : Db * Random) (d : Deal.t) (s' : Db * Random),
    create_deal cfg fuel now deal s = Returned d s' ->
    (exists listing : Listing.t,
       listing_by_id (DealCreate.listing_id deal) (fst s) = Some listing
       /\ Deal.usdt_amount d = DealCreate.usdt_amount deal
       /\ Deal.etb_amount d = (DealCreate.usdt_amount deal * Listing.rate listing)%float
       /\ Deal.commission_amount d
          = (DealCreate.usdt_amount deal * (COMMISSION_PERCENT cfg / 100))%float
       /\ (Listing.rate listing = 130%float ->
           DealCreate.usdt_amount deal = 100%float ->
           COMMISSION_PERCENT cfg = 1.5%float ->
           Deal.etb_amount d = 13000%float /\ Deal.commission_amount d = 1.5%float))
    /\ forall s'' : Db * Random,
         later cfg s' s'' ->
         exists d' : Deal.t, In d' (deals (fst s'')) /\ same_amounts d d'.
Proof.
  intros cfg fuel now deal [db r] d s' H.
  apply create_deal_returned in H.
  destruct H as (listing & c & r' & Hl & _ & Hd & ->).
  split.
  - exists listing. cbn [fst]. rewrite Hd.
    split; [exact Hl|].
    split; [reflexivity|]. split; [reflexivity|]. split; [reflexivity|].
    cbn [Deal.etb_amount Deal.commission_amount new_deal Deal.init].
    intros -> -> ->. split; reflexivity.
  - intros s'' L. apply later_kept in L. eapply kept_In; [exact L|].
    cbn [fst with_new_deal append_log deals]. apply in_app_iff. right. now left.
Qed.

Lemma deal_amounts_fixed_at_creation_witness :
  (exists listing : Listing.t,
     listing_by_id 1 (fst (listed sqlite)) = Some listing
     /\ Deal.usdt_amount deal_AB12C = 100%float
     /\ Deal.etb_amount deal_AB12C = (100 * Listing.rate listing)%float
     /\ Deal.commission_amount deal_AB12C = (100 * (1.5 / 100))%float
     /\ (Listing.rate listing = 130%float ->
         100%float = 100%float ->
         1.5%float = 1.5%float ->
         Deal.etb_amount deal_AB12C = 13000%float
         /\ Deal.commission_amount deal_AB12C = 1.5%float))
  /\ forall s'' : Db * Random,
       later default_config (opened sqlite) s'' ->
       exists d' : Deal.t, In d' (deals (fst s'')) /\ same_amounts deal_AB12C d'.
Proof.
  assert (H : create_deal default_config 1 4 order (listed sqlite)
              = Returned deal_AB12C (opened sqlite)) by (vm_compute; reflexivity).
  exact (deal_amounts_fixed_at_creation default_config 1%nat 4%nat order
           (listed sqlite) deal_AB12C (opened sqlite) H).
Defined.

(** * Validation of the amount *)





(** * The buyer of a deal *)




(** * The status of the listing *)

Section UpdateListing.

Variable f : Listing.t -> Listing.t.
Variable pk : Z.
Hypothesis f_id : forall l, Listing.id (f l) = Listing.id l.
Hypothesis f_user_id : forall l, Listing.user_id (f l) = Listing.user_id l.
Hypothesis f_rate : forall l, Listing.rate (f l) = Listing.rate l.

Let g (l : Listing.t) : Listing.t := if Listing.id l =? pk then f l else l.










End UpdateListing.


(** A deal opened on the scenario's listing once it is inactive is the deal
    opened while it was active. *)
Example deal_on_inactive_listing :
  create_deal default_config 1 4 order
    (set_listing_status 1 "inactive" (fst (listed sqlite)), snd (listed sqlite))
  = Returned deal_AB12C (on_db (set_listing_status 1 "inactive") (opened sqlite)).
Proof. vm_compute. reflexivity. Qed.

(** * Primary keys *)

Lemma next_id_positive (ids : list Z) : 0 < next_id ids.
Proof.
  unfold next_id. assert (0 <= fold_right Z.max 0 ids); [|lia].
  induction ids as [|i ids IH]; cbn [fold_right]; lia.
Qed.

Lemma StronglySorted_snoc (l : list Z) (y : Z) :
  StronglySorted Z.lt l -> (forall x, In x l -> x < y) ->
  StronglySorted Z.lt (l ++ [y]).
Proof.
  induction 1 as [|a l Hl IH Ha]; intros Hy; cbn [app].
  - repeat constructor.
  - constructor.
    + apply IH. intros x Hx. apply Hy. now right.
    + apply Forall_app. split; [exact Ha|]. constructor; [|constructor].
      apply Hy. now left.
Qed.

Lemma increasing_nil : increasing [].
Proof. split; constructor. Qed.

Lemma increasing_next (ids : list Z) :
  increasing ids -> increasing (ids ++ [next_id ids]).
Proof.
  intros [Hs Hp]. split.
  - apply StronglySorted_snoc; [exact Hs | apply next_id_above].
  - apply Forall_app. split; [exact Hp|].
    constructor; [apply next_id_positive | constructor].
Qed.

Lemma increasing_NoDup (ids : list Z) : increasing ids -> NoDup ids.
Proof.
  intros [Hs _]. induction Hs as [|a l Hl IH Ha]; constructor; [|exact IH].
  intros Hin. rewrite Forall_forall in Ha. specialize (Ha a Hin). lia.
Qed.

Lemma find_last {A : Type} (p : A -> bool) (l : list A) (y : A) :
  (forall x, In x l -> p x = false) -> p y = true -> find p (l ++ [y]) = Some y.
Proof.
  intros Hl Hy. induction l as [|a l IH]; cbn [app find].
  - now rewrite Hy.
  - rewrite (Hl a (or_introl eq_refl)). apply IH. intros x Hx. apply Hl. now right.
Qed.

Lemma fresh_key_unmatched {A : Type} (key : A -> Z) (l : list A) (x : A) :
  In x l -> (key x =? next_id (map key l)) = false.
Proof.
  intros Hin. apply Z.eqb_neq. intros E.
  apply (next_id_fresh (map key l)). rewrite <- E. now apply in_map.
Qed.

(** * Users and listings *)

(** X1. A user returned by [create_user] carries the fields of the request,
    is not verified, is appended to the table, and is what [get_user] then
    returns for its key: in any state of the tables. *)
Theorem create_user_then_get_user :
  forall (now : Timestamp) (user : UserCreate.t) (db db' : Db) (u : User.t),
    create_user now user db = Returned u db' ->
    get_user (User.id u) db' = Ok u
    /\ users db' = users db ++ [u]
    /\ u = User.mk (next_id (map User.id (users db))) (UserCreate.name user)
             (UserCreate.telegram_username user) (UserCreate.user_type user) false now
    /\ listings db' = listings db /\ deals db' = deals db /\ logs db' = logs db.
Proof.
  intros now user db db' u. unfold create_user.
  destruct (find _ (users db)); [discriminate|].
  intros [= <- <-]. cbn [users listings deals logs]. repeat split.
  unfold get_user. cbn [users User.id].
  rewrite find_last; [reflexivity| |apply Z.eqb_refl].
  intros x Hx. now apply fresh_key_unmatched.
Qed.

Lemma create_user_then_get_user_witness :
  get_user 1 (mkDb sqlite [User.mk 1 "Abel" "abel_usdt" "seller" false 1] [] [] [])
  = Ok (User.mk 1 "Abel" "abel_usdt" "seller" false 1).
Proof.
  exact (proj1 (create_user_then_get_user 1%nat seller (empty_db sqlite)
                  (mkDb sqlite [User.mk 1 "Abel" "abel_usdt" "seller" false 1] [] [] [])
                  (User.mk 1 "Abel" "abel_usdt" "seller" false 1) eq_refl)).
Defined.

(** X2. [create_user] fails with HTTP 400 "User already exists", leaving the
    tables as they were, exactly when a stored user has the requested
    [telegram_username]; otherwise it returns. *)
Theorem create_user_username_taken :
  forall (now : Timestamp) (user : UserCreate.t) (db : Db),
    (In (UserCreate.telegram_username user) (map User.telegram_username (users db)) ->
     create_user now user db = Raised (HTTPException 400 "User already exists") db)
    /\ (~ In (UserCreate.telegram_username user) (map User.telegram_username (users db)) ->
        exists (u : User.t) (db' : Db), create_user now user db = Returned u db').
Proof.
  intros now user db. unfold create_user.
  destruct (find _ (users db)) as [u|] eqn:E; split.
  - reflexivity.
  - intros H. exfalso. apply H. apply find_some in E. destruct E as [Hin E].
    apply String.eqb_eq in E. rewrite <- E. now apply in_map.
  - intros H. exfalso. apply in_map_iff in H. destruct H as (u & Hu & Hin).
    pose proof (find_none _ _ E u Hin) as F. cbn in F.
    rewrite Hu, String.eqb_refl in F. discriminate.
  - intros _. eexists. eexists. reflexivity.
Qed.

Lemma create_user_username_taken_witness :
  create_user 9 seller (fst (listed sqlite))
  = Raised (HTTPException 400 "User already exists") (fst (listed sqlite)).
Proof.
  apply (proj1 (create_user_username_taken 9%nat seller (fst (listed sqlite)))).
  vm_compute. auto.
Defined.



(** * What a request leaves behind *)

Lemma create_deal_final (cfg : Config) (fuel : nat) (now : Timestamp)
    (deal : DealCreate.t) (db : Db) (r : Random) (s' : Db * Random) :
  final (create_deal cfg fuel now deal (db, r)) = Some s' ->
  fst s' = db
  \/ exists (listing : Listing.t) (c : string),
       listing_by_id (DealCreate.listing_id deal) db = Some listing
       /\ fst s' = with_new_deal
                     (new_deal cfg deal listing c (next_id (map Deal.id (deals db))) now)
                     now db.
Proof.
  destruct (create_deal cfg fuel now deal (db, r)) as [d s1|e s1|] eqn:E;
    cbn [final]; [| |discriminate]; intros [= <-].
  - right. apply create_deal_returned in E.
    destruct E as (listing & c & r' & Hl & _ & -> & ->).
    exists listing, c. now split.
  - left. revert E. unfold create_deal.
    destruct (listing_by_id _ db) as [listing|]; [|now intros [= _ <-]].
    destruct (unique_trade_code fuel r db) as [[c r']|]; [|discriminate].
    destruct (add_deal _ now db) as [[d db1]|] eqn:A; [|now intros [= _ <-]].
    apply add_deal_spec in A. destruct A as (_ & -> & _).
    rewrite add_log_stored; [discriminate|].
    cbn [deals]. rewrite map_app, in_app_iff. right. now left.
Qed.

Lemma confirm_payment_final (now : Timestamp) (confirmation : PaymentConfirmation.t)
    (db db' : Db) :
  final (confirm_payment now confirmation db) = Some db' ->
  db' = db
  \/ exists d : Deal.t,
       deal_by_trade_code (stripped (PaymentConfirmation.trade_code confirmation)) db
       = Some d
       /\ Deal.status d = "pending"
       /\ db' = append_log (Deal.id d) "Payment confirmed"
                  [Str "Seller confirmed ETB payment received"] now
                  (set_deal_status (Deal.id d) "paid" now db).
Proof.
  destruct (deal_by_trade_code (stripped (PaymentConfirmation.trade_code confirmation)) db)
    as [d|] eqn:E.
  - destruct (String.eqb (Deal.status d) "pending") eqn:S.
    + apply String.eqb_eq in S. rewrite (confirm_payment_pending _ _ _ _ E S).
      cbn [final]. intros [= <-]. right. now exists d.
    + apply String.eqb_neq in S. rewrite (confirm_payment_not_pending _ _ _ _ E S).
      cbn [final]. intros [= <-]. now left.
  - rewrite (confirm_payment_missing _ _ _ E). cbn [final]. intros [= <-]. now left.
Qed.

Lemma release_funds_final (cfg : Config) (now : Timestamp) (release : AdminRelease.t)
    (db db' : Db) :
  final (release_funds cfg now release db) = Some db' ->
  db' = db
  \/ exists d : Deal.t,
       deal_by_trade_code (stripped (AdminRelease.trade_code release)) db = Some d
       /\ Deal.status d = "paid"
       /\ db' = append_log (Deal.id d) "Funds released"
                  [Str "Admin released ";
                   Num (Deal.usdt_amount d - Deal.commission_amount d)%float;
                   Str " USDT to buyer"] now
                  (set_deal_status (Deal.id d) "released" now db).
Proof.
  destruct (String.eqb (AdminRelease.secret release) (RELEASE_SECRET cfg)) eqn:Hs.
  - apply String.eqb_eq in Hs.
    destruct (deal_by_trade_code (stripped (AdminRelease.trade_code release)) db)
      as [d|] eqn:E.
    + destruct (String.eqb (Deal.status d) "paid") eqn:S.
      * apply String.eqb_eq in S. rewrite (release_funds_paid _ _ _ _ _ Hs E S).
        cbn [final]. intros [= <-]. right. now exists d.
      * apply String.eqb_neq in S. rewrite (release_funds_not_paid _ _ _ _ _ Hs E S).
        cbn [final]. intros [= <-]. now left.
    + rewrite (release_funds_missing _ _ _ _ Hs E). cbn [final]. intros [= <-]. now left.
  - apply String.eqb_neq in Hs. rewrite (release_funds_forbidden _ _ _ _ Hs).
    cbn [final]. intros [= <-]. now left.
Qed.

(** ** The log entries of a deal *)

Lemma trail_app (k : Z) (l l' : list Log.t) : trail k (l ++ l') = trail k l ++ trail k l'.
Proof. unfold trail. now rewrite filter_app, map_app. Qed.

Lemma trail_other (k : Z) (l : list Log.t) (g : Log.t) :
  Log.deal_id g <> k -> trail k (l ++ [g]) = trail k l.
Proof.
  intros H. rewrite trail_app. unfold trail at 2. cbn [filter].
  apply Z.eqb_neq in H. rewrite H. cbn [map]. apply app_nil_r.
Qed.

Lemma trail_same (k : Z) (l : list Log.t) (g : Log.t) :
  Log.deal_id g = k -> trail k (l ++ [g]) = trail k l ++ [Log.action g].
Proof.
  intros H. rewrite trail_app. unfold trail at 2. cbn [filter].
  apply Z.eqb_eq in H. now rewrite H.
Qed.

Lemma trail_unknown (k : Z) (ids : list Z) (l : list Log.t) :
  Forall (fun g => In (Log.deal_id g) ids) l -> ~ In k ids -> trail k l = [].
Proof.
  intros H Hk. unfold trail. induction H as [|g l Hg _ IH]; [reflexivity|].
  cbn [filter]. destruct (Log.deal_id g =? k) eqn:E; [|exact IH].
  apply Z.eqb_eq in E. subst k. contradiction.
Qed.

(** ** [sound] is kept by every request *)

Lemma empty_db_sound (d : Dialect) : sound (empty_db d).
Proof. split; cbn; try apply increasing_nil; constructor. Qed.

Lemma create_user_sound (now : Timestamp) (user : UserCreate.t) (db db' : Db) :
  final (create_user now user db) = Some db' -> sound db -> sound db'.
Proof.
  unfold create_user. destruct (find _ (users db)) as [u|] eqn:E; cbn [final].
  - now intros [= <-].
  - intros [= <-] [K1 K2 K3 K4 U A L S T G].
    split; cbn [users listings deals logs]; try assumption.
    + rewrite map_app. cbn [map User.id]. now apply increasing_next.
    + rewrite map_app. cbn [map User.telegram_username].
      apply NoDup_app; [exact U | repeat constructor; auto |].
      intros n Hn [<-|[]]. apply in_map_iff in Hn. destruct Hn as (x & Hx & Hin).
      pose proof (find_none _ _ E x Hin) as F. cbn in F.
      rewrite Hx, String.eqb_refl in F. discriminate.
Qed.

Lemma create_listing_sound (now : Timestamp) (listing : ListingCreate.t) (db db' : Db) :
  final (create_listing now listing db) = Some db' -> sound db -> sound db'.
Proof.
  unfold create_listing. destruct (find _ (users db)) as [u|]; cbn [final].
  - intros [= <-] [K1 K2 K3 K4 U A L S T G].
    split; cbn [users listings deals logs]; try assumption.
    + rewrite map_app. cbn [map Listing.id]. now apply increasing_next.
    + apply Forall_app. split; [exact A|]. now repeat constructor.
    + eapply Forall_impl; [|exact L]. intros d (l & Hl & H1 & H2).
      exists l. split; [|now split]. apply in_app_iff. now left.
  - now intros [= <-].
Qed.

Lemma with_new_deal_sound (cfg : Config) (deal : DealCreate.t) (now : Timestamp)
    (db : Db) (listing : Listing.t) (c : string) :
  listing_by_id (DealCreate.listing_id deal) db = Some listing ->
  sound db ->
  sound (with_new_deal
           (new_deal cfg deal listing c (next_id (map Deal.id (deals db))) now) now db).
Proof.
  intros Hl [K1 K2 K3 K4 U A L S T G].
  apply listing_by_id_In in Hl. destruct Hl as [Hin Hid].
  set (k := next_id (map Deal.id (deals db))).
  assert (Hk : ~ In k (map Deal.id (deals db))) by apply next_id_fresh.
  split; unfold with_new_deal, append_log; cbn [users listings deals logs];
    try assumption.
  - rewrite map_app. cbn [map]. now apply increasing_next.
  - rewrite map_app. cbn [map Log.id]. now apply increasing_next.
  - apply Forall_app. split; [exact L|]. constructor; [|constructor].
    exists listing. now repeat split.
  - apply Forall_app. split; [exact S|]. constructor; [|constructor]. now left.
  - apply Forall_app. split.
    + rewrite Forall_forall in T |- *. intros d Hd.
      rewrite trail_other; [now apply T|].
      cbn [Log.deal_id new_deal Deal.init Deal.id]. intros E. apply Hk.
      fold k in E. rewrite E. now apply in_map.
    + constructor; [|constructor].
      rewrite trail_same by reflexivity.
      cbn [new_deal Deal.init Deal.id Deal.status Log.action]. fold k.
      now rewrite (trail_unknown k _ _ G Hk).
  - apply Forall_app. split.
    + eapply Forall_impl; [|exact G]. intros g Hg.
      rewrite map_app, in_app_iff. now left.
    + constructor; [|constructor]. cbn [Log.deal_id].
      rewrite map_app, in_app_iff. right. now left.
Qed.

(** A stored deal moving from [st0] to [st1], with the log entry [action]. *)
Lemma transition_sound (st0 st1 action : string) (notes : list Value)
    (now : Timestamp) (db : Db) (d : Deal.t) :
  In st1 lifecycle ->
  expected_trail st1 = expected_trail st0 ++ [action] ->
  In d (deals db) ->
  Deal.status d = st0 ->
  sound db ->
  sound (append_log (Deal.id d) action notes now (set_deal_status (Deal.id d) st1 now db)).
Proof.
  intros H1 Ht Hin Hst [K1 K2 K3 K4 U A L S T G].
  pose proof (increasing_NoDup _ K3) as Hnd.
  split; unfold append_log; cbn [users listings deals logs].
  - exact K1.
  - exact K2.
  - now rewrite set_deal_status_keys.
  - rewrite map_app. cbn [map Log.id]. now apply increasing_next.
  - exact U.
  - exact A.
  - cbn [deals listings set_deal_status].
    rewrite Forall_map. eapply Forall_impl; [|exact L].
    intros x Hx. now destruct (Deal.id x =? Deal.id d).
  - cbn [deals set_deal_status].
    rewrite Forall_map. eapply Forall_impl; [|exact S].
    intros x Hx. now destruct (Deal.id x =? Deal.id d).
  - cbn [deals logs set_deal_status].
    rewrite Forall_map. rewrite Forall_forall in T |- *. intros x Hx.
    destruct (Deal.id x =? Deal.id d) eqn:E.
    + apply Z.eqb_eq in E.
      assert (x = d) by (eapply same_key_same_deal; eauto). subst x.
      cbn [Deal.with_status Deal.id Deal.status].
      rewrite trail_same by reflexivity. cbn [Log.action].
      now rewrite (T d Hin), Hst, Ht.
    + apply Z.eqb_neq in E. rewrite trail_other; [now apply T|].
      cbn [Log.deal_id]. congruence.
  - rewrite set_deal_status_keys. cbn [logs set_deal_status].
    apply Forall_app. split; [exact G|].
    constructor; [|constructor]. cbn [Log.deal_id]. now apply in_map.
Qed.

Lemma serve_sound (cfg : Config) (now : Timestamp) (req : Request) (s s' : Db * Random) :
  final (serve cfg now req s) = Some s' -> sound (fst s) -> sound (fst s').
Proof.
  destruct req; cbn [serve].
  - intros H. apply final_lift in H. destruct H as [H _].
    revert H. apply create_user_sound.
  - intros H. apply final_lift in H. destruct H as [H _].
    revert H. apply create_listing_sound.
  - rewrite final_forget. unfold post_deals.
    destruct (DealCreate.validate deal); [|cbn [final]; now intros [= <-]].
    destruct s as [db r]. intros H Hs. cbn [fst] in Hs.
    apply create_deal_final in H.
    destruct H as [->|(listing & c & Hl & ->)]; [exact Hs|].
    now apply with_new_deal_sound.
  - destruct (PaymentConfirmation.validate confirmation);
      [|cbn [final]; now intros [= <-]].
    intros H Hs. apply final_lift in H. destruct H as [H _].
    apply confirm_payment_final in H.
    destruct H as [->|(d & Hd & Hst & ->)]; [exact Hs|].
    apply deal_by_trade_code_In in Hd. destruct Hd as [Hin _].
    apply (transition_sound "pending" "paid"); auto.
    cbn. auto.
  - destruct (AdminRelease.validate release); [|cbn [final]; now intros [= <-]].
    intros H Hs. apply final_lift in H. destruct H as [H _].
    apply release_funds_final in H.
    destruct H as [->|(d & Hd & Hst & ->)]; [exact Hs|].
    apply deal_by_trade_code_In in Hd. destruct Hd as [Hin _].
    apply (transition_sound "paid" "released"); auto.
    cbn. auto.
Qed.

Lemma reachable_sound (cfg : Config) (s : Db * Random) :
  reachable cfg s -> sound (fst s).
Proof.
  induction 1 as [d r | s s' now req _ IH H].
  - apply empty_db_sound.
  - eapply serve_sound; eassumption.
Qed.

(** * Invariants of the tables *)

(** X4. In every reachable state no two stored users share a
    [telegram_username]. *)
Theorem usernames_never_shared :
  forall (cfg : Config) (s : Db * Random),
    reachable cfg s -> NoDup (map User.telegram_username (users (fst s))).
Proof. intros cfg s R. apply (usernames_unique _ (reachable_sound cfg s R)). Qed.

Lemma usernames_never_shared_witness :
  NoDup (map User.telegram_username (users (fst (paid postgresql)))).
Proof.
  exact (usernames_never_shared default_config (paid postgresql)
           (after_trace_reachable _ postgresql)).
Defined.

(** X5. In every reachable state the primary keys of each table (users,
    listings, deals, logs) are positive and strictly increasing in the order
    of insertion, hence pairwise distinct. *)
Theorem primary_keys_increasing :
  forall (cfg : Config) (s : Db * Random),
    reachable cfg s ->
    increasing (map User.id (users (fst s)))
    /\ increasing (map Listing.id (listings (fst s)))
    /\ increasing (map Deal.id (deals (fst s)))
    /\ increasing (map Log.id (logs (fst s)))
    /\ NoDup (map User.id (users (fst s)))
    /\ NoDup (map Listing.id (listings (fst s)))
    /\ NoDup (map Deal.id (deals (fst s)))
    /\ NoDup (map Log.id (logs (fst s))).
Proof.
  intros cfg s R. destruct (reachable_sound cfg s R) as [K1 K2 K3 K4 _ _ _ _ _ _].
  repeat split; try apply increasing_NoDup; first [apply K1|apply K2|apply K3|apply K4].
Qed.

Lemma primary_keys_increasing_witness :
  increasing (map User.id (users (fst (reopened sqlite))))
  /\ increasing (map Listing.id (listings (fst (reopened sqlite))))
  /\ increasing (map Deal.id (deals (fst (reopened sqlite))))
  /\ increasing (map Log.id (logs (fst (reopened sqlite))))
  /\ NoDup (map User.id (users (fst (reopened sqlite))))
  /\ NoDup (map Listing.id (listings (fst (reopened sqlite))))
  /\ NoDup (map Deal.id (deals (fst (reopened sqlite))))
  /\ NoDup (map Log.id (logs (fst (reopened sqlite)))).
Proof.
  exact (primary_keys_increasing default_config (reopened sqlite)
           (after_trace_reachable _ sqlite)).
Defined.

(** X6. In every reachable state, on either engine, every listing is active
    and its [user_id] is the key of a stored user; every deal's [listing_id]
    is the key of a stored listing whose owner is the deal's [seller_id], a
    stored user; and every log entry's [deal_id] is the key of a stored
    deal. *)
Theorem references_resolve :
  forall (cfg : Config) (s : Db * Random),
    reachable cfg s ->
    (forall l : Listing.t,
       In l (listings (fst s)) ->
       Listing.status l = "active"
       /\ In (Listing.user_id l) (map User.id (users (fst s))))
    /\ (forall d : Deal.t,
          In d (deals (fst s)) ->
          In (Deal.seller_id d) (map User.id (users (fst s)))
          /\ exists l : Listing.t,
               In l (listings (fst s))
               /\ Listing.id l = Deal.listing_id d
               /\ Listing.user_id l = Deal.seller_id d)
    /\ (forall g : Log.t,
          In g (logs (fst s)) -> In (Log.deal_id g) (map Deal.id (deals (fst s)))).
Proof.
  intros cfg s R.
  destruct (reachable_sound cfg s R) as [_ _ _ _ _ A L _ _ G].
  pose proof (listings_owned _ (reachable_consistent cfg s R)) as O.
  rewrite Forall_forall in A, L, G, O. split; [|split].
  - intros l Hl. split; [now apply A | now apply references_In, O].
  - intros d Hd. destruct (L d Hd) as (l & Hl & H1 & H2). split.
    + rewrite <- H2. now apply references_In, O.
    + now exists l.
  - exact G.
Qed.

Lemma references_resolve_witness :
  In 1 (map User.id (users (fst (opened sqlite))))
  /\ exists l : Listing.t,
       In l (listings (fst (opened sqlite)))
       /\ Listing.id l = 1
       /\ Listing.user_id l = 1.
Proof.
  assert (Hin : In deal_AB12C (deals (fst (opened sqlite)))) by (vm_compute; auto).
  exact (proj1 (proj2 (references_resolve default_config (opened sqlite)
                         (after_trace_reachable _ sqlite)))
           deal_AB12C Hin).
Defined.

(** X7. In every reachable state each deal's status is ["pending"],
    ["paid"] or ["released"] (never ["cancelled"]), and the log entries of the
    deal, in order, are ["Deal created"], then ["Payment confirmed"] once it
    is paid, then ["Funds released"] once it is released: no more, no
    less. *)
Theorem log_entries_follow_status :
  forall (cfg : Config) (s : Db * Random),
    reachable cfg s ->
    forall d : Deal.t,
      In d (deals (fst s)) ->
      (Deal.status d = "pending"
       /\ trail (Deal.id d) (logs (fst s)) = ["Deal created"])
      \/ (Deal.status d = "paid"
          /\ trail (Deal.id d) (logs (fst s)) = ["Deal created"; "Payment confirmed"])
      \/ (Deal.status d = "released"
          /\ trail (Deal.id d) (logs (fst s))
             = ["Deal created"; "Payment confirmed"; "Funds released"]).
Proof.
  intros cfg s R d Hd.
  destruct (reachable_sound cfg s R) as [_ _ _ _ _ _ _ S T _].
  rewrite Forall_forall in S, T. specialize (S d Hd). specialize (T d Hd).
  rewrite T. destruct S as [E|[E|[E|[]]]]; rewrite <- E; auto.
Qed.

Lemma log_entries_follow_status_witness :
  (Deal.status (Deal.with_status "paid" 5 deal_AB12C) = "pending"
   /\ trail 1 (logs (fst (paid sqlite))) = ["Deal created"])
  \/ (Deal.status (Deal.with_status "paid" 5 deal_AB12C) = "paid"
      /\ trail 1 (logs (fst (paid sqlite))) = ["Deal created"; "Payment confirmed"])
  \/ (Deal.status (Deal.with_status "paid" 5 deal_AB12C) = "released"
      /\ trail 1 (logs (fst (paid sqlite)))
         = ["Deal created"; "Payment confirmed"; "Funds released"]).
Proof.
  assert (Hin : In (Deal.with_status "paid" 5 deal_AB12C) (deals (fst (paid sqlite))))
    by (vm_compute; auto).
  exact (log_entries_follow_status default_config (paid sqlite)
           (after_trace_reachable _ sqlite) _ Hin).
Defined.

(** * Statuses only move forward *)

Lemma advances_refl (st : string) : advances st st.
Proof. now left. Qed.

Lemma advances_trans (a b c : string) : advances a b -> advances b c -> advances a c.
Proof.
  unfold advances.
  intros [->|[[-> ->]|[[-> ->]|[-> ->]]]] [->|[[E ->]|[[E ->]|[E ->]]]];
    try discriminate E; auto 6.
Qed.

Lemma moved_on_refl (d : Deal.t) : moved_on d d.
Proof. repeat split. apply advances_refl. Qed.

Lemma Forall2_moved_on_refl (l : list Deal.t) : Forall2 moved_on l l.
Proof. induction l; constructor; auto using moved_on_refl. Qed.

Lemma progressed_same_deals (db db' : Db) : deals db' = deals db -> progressed db db'.
Proof.
  intros E. exists (deals db), []. split; [now rewrite app_nil_r|].
  apply Forall2_moved_on_refl.
Qed.

Lemma progressed_trans (db1 db2 db3 : Db) :
  progressed db1 db2 -> progressed db2 db3 -> progressed db1 db3.
Proof.
  intros (o1 & n1 & E1 & F1) (o2 & n2 & E2 & F2).
  rewrite E1 in F2. apply Forall2_app_inv_l in F2.
  destruct F2 as (o2a & o2b & Fa & Fb & ->).
  exists o2a, (o2b ++ n2). split; [now rewrite E2, app_assoc|].
  clear - F1 Fa. revert o2a Fa.
  induction F1 as [|d d1 l l1 H _ IH]; intros o2a Fa; inversion Fa; subst;
    constructor; auto.
  destruct H as (? & ? & ?), H2 as (? & ? & ?).
  repeat split; try congruence. eapply advances_trans; eassumption.
Qed.

Lemma progressed_In (db db' : Db) (d : Deal.t) :
  progressed db db' -> In d (deals db) ->
  exists d' : Deal.t, In d' (deals db') /\ moved_on d d'.
Proof.
  intros (old & new & E & F) Hin. rewrite E. clear E.
  induction F as [|x x' l l' H _ IH]; [destruct Hin|].
  destruct Hin as [->|Hin].
  - exists x'. split; [now left | exact H].
  - destruct (IH Hin) as (d' & Hd' & Hs). exists d'. split; [now right | exact Hs].
Qed.

Lemma progressed_transition (st0 st1 action : string) (notes : list Value)
    (now : Timestamp) (db : Db) (d : Deal.t) :
  advances st0 st1 ->
  NoDup (map Deal.id (deals db)) ->
  In d (deals db) ->
  Deal.status d = st0 ->
  progressed db
    (append_log (Deal.id d) action notes now (set_deal_status (Deal.id d) st1 now db)).
Proof.
  intros Ha Hnd Hin Hst.
  exists (deals (set_deal_status (Deal.id d) st1 now db)), [].
  split; [unfold append_log; cbn [deals]; now rewrite app_nil_r|].
  cbn [deals set_deal_status].
  assert (H : forall x, In x (deals db) ->
                moved_on x (if Deal.id x =? Deal.id d then Deal.with_status st1 now x else x)).
  { intros x Hx. destruct (Deal.id x =? Deal.id d) eqn:E; [|apply moved_on_refl].
    apply Z.eqb_eq in E. assert (x = d) by (eapply same_key_same_deal; eauto).
    subst x. repeat split. cbn [Deal.with_status Deal.status]. now rewrite Hst. }
  revert H. generalize (deals db) as l.
  induction l as [|x l IH]; intros H; cbn [map]; constructor.
  - apply H. now left.
  - apply IH. intros y Hy. apply H. now right.
Qed.

Lemma serve_progressed (cfg : Config) (now : Timestamp) (req : Request)
    (s s' : Db * Random) :
  consistent (fst s) ->
  final (serve cfg now req s) = Some s' -> progressed (fst s) (fst s').
Proof.
  intros C. pose proof (unique_keys _ C) as Hnd. destruct req; cbn [serve].
  - intros H. apply final_lift in H. destruct H as [H _]. revert H.
    unfold create_user. destruct (find _ (users (fst s))); cbn [final];
      intros [= <-]; now apply progressed_same_deals.
  - intros H. apply final_lift in H. destruct H as [H _]. revert H.
    unfold create_listing. destruct (find _ (users (fst s))); cbn [final];
      intros [= <-]; now apply progressed_same_deals.
  - rewrite final_forget. unfold post_deals.
    destruct (DealCreate.validate deal);
      [|cbn [final]; intros [= <-]; now apply progressed_same_deals].
    destruct s as [db r]. intros H. cbn [fst] in *.
    apply create_deal_final in H.
    destruct H as [->|(listing & c & Hl & ->)]; [now apply progressed_same_deals|].
    eexists (deals db), [_]. split; [reflexivity | apply Forall2_moved_on_refl].
  - destruct (PaymentConfirmation.validate confirmation);
      [|cbn [final]; intros [= <-]; now apply progressed_same_deals].
    intros H. apply final_lift in H. destruct H as [H _].
    apply confirm_payment_final in H.
    destruct H as [->|(d & Hd & Hst & ->)]; [now apply progressed_same_deals|].
    apply deal_by_trade_code_In in Hd. destruct Hd as [Hin _].
    apply (progressed_transition "pending" "paid"); auto. right. now left.
  - destruct (AdminRelease.validate release);
      [|cbn [final]; intros [= <-]; now apply progressed_same_deals].
    intros H. apply final_lift in H. destruct H as [H _].
    apply release_funds_final in H.
    destruct H as [->|(d & Hd & Hst & ->)]; [now apply progressed_same_deals|].
    apply deal_by_trade_code_In in Hd. destruct Hd as [Hin _].
    apply (progressed_transition "paid" "released"); auto. right. right. now left.
Qed.

Lemma set_listing_rate_consistent (pk : Z) (rate : float) (db : Db) :
  consistent db -> consistent (set_listing_rate pk rate db).
Proof.
  intros [C1 C2 C3 C4]. split; try assumption.
  cbn [set_listing_rate update_listing users listings].
  rewrite Forall_map. eapply Forall_impl; [|exact C4].
  intros l Hl. now destruct (Listing.id l =? pk).
Qed.

Lemma later_progressed (cfg : Config) (s s' : Db * Random) :
  consistent (fst s) -> later cfg s s' ->
  consistent (fst s') /\ progressed (fst s) (fst s').
Proof.
  intros C. induction 1 as [|s1 s2 now req _ [C1 P1] H|s1 pk rate _ [C1 P1]].
  - split; [exact C | now apply progressed_same_deals].
  - split; [eapply serve_consistent; eassumption|].
    eapply progressed_trans; [exact P1 | eapply serve_progressed; eassumption].
  - split; [now apply set_listing_rate_consistent|].
    eapply progressed_trans; [exact P1 | now apply progressed_same_deals].
Qed.

(** X8. From a reachable state on, whatever requests are served, every
    stored deal stays stored under the same key and trade code, and its
    status is either what it was or further along pending, paid, released: a
    status never moves back, and a released deal stays released. *)
Theorem status_never_moves_back :
  forall (cfg : Config) (s s' : Db * Random),
    reachable cfg s ->
    later cfg s s' ->
    forall d : Deal.t,
      In d (deals (fst s)) ->
      exists d' : Deal.t,
        In d' (deals (fst s'))
        /\ Deal.id d' = Deal.id d
        /\ Deal.trade_code d' = Deal.trade_code d
        /\ (Deal.status d' = Deal.status d
            \/ (Deal.status d = "pending" /\ Deal.status d' = "paid")
            \/ (Deal.status d = "paid" /\ Deal.status d' = "released")
            \/ (Deal.status d = "pending" /\ Deal.status d' = "released"))
        /\ (Deal.status d = "released" -> Deal.status d' = "released").
Proof.
  intros cfg s s' R L d Hd.
  destruct (later_progressed cfg s s' (reachable_consistent cfg s R) L) as [_ P].
  destruct (progressed_In _ _ d P Hd) as (d' & Hd' & Hid & Hc & Ha).
  exists d'. repeat split; try assumption.
  intros E. rewrite E in Ha.
  destruct Ha as [->|[[F _]|[[F _]|[F _]]]]; [reflexivity|discriminate F..].
Qed.

Lemma status_never_moves_back_witness :
  exists d' : Deal.t,
    In d' (deals (fst (paid sqlite)))
    /\ Deal.id d' = 1
    /\ Deal.trade_code d' = "AB12C"
    /\ (Deal.status d' = "pending"
        \/ ("pending" = "pending" /\ Deal.status d' = "paid")
        \/ ("pending" = "paid" /\ Deal.status d' = "released")
        \/ ("pending" = "pending" /\ Deal.status d' = "released"))
    /\ ("pending" = "released" -> Deal.status d' = "released").
Proof.
  assert (Hin : In deal_AB12C (deals (fst (opened sqlite)))) by (vm_compute; auto).
  assert (L : later default_config (opened sqlite) (paid sqlite)).
  { apply (later_serve _ _ (opened sqlite) _ 5%nat
             (PostConfirmPayment (PaymentConfirmation.mk "#AB12C"))).
    - apply later_now.
    - vm_compute. reflexivity. }
  exact (status_never_moves_back default_config (opened sqlite) (paid sqlite)
           (after_trace_reachable _ sqlite) L deal_AB12C Hin).
Defined.

Lemma same_code_same_deal (db : Db) (d d' : Deal.t) :
  consistent db -> In d (deals db) -> In d' (deals db) ->
  Deal.trade_code d' = Deal.trade_code d -> d' = d.
Proof.
  intros C Hd Hd' E.
  pose proof (deal_by_own_trade_code db d C Hd) as H.
  pose proof (deal_by_own_trade_code db d' C Hd') as H'.
  rewrite E in H'. congruence.
Qed.

(** X9. Once a deal of a reachable state is released, it is so for good:
    in every later state [confirm_payment] and [release_funds] on its trade
    code fail with HTTP 400 and leave the tables as they are, and
    [get_pending_deals] lists no deal with that code. *)
Theorem released_for_good :
  forall (cfg : Config) (s s' : Db * Random) (d : Deal.t),
    reachable cfg s ->
    In d (deals (fst s)) ->
    Deal.status d = "released" ->
    later cfg s s' ->
    (forall now : Timestamp,
       confirm_payment now (PaymentConfirmation.mk (Deal.trade_code d)) (fst s')
       = Raised InvalidState_not_pending (fst s')
       /\ release_funds cfg now
            (AdminRelease.mk (Deal.trade_code d) (RELEASE_SECRET cfg)) (fst s')
          = Raised InvalidState_not_paid (fst s'))
    /\ forall x : Deal.t,
         In x (get_pending_deals (fst s')) -> Deal.trade_code x <> Deal.trade_code d.
Proof.
  intros cfg s s' d R Hd Hst L.
  destruct (later_progressed cfg s s' (reachable_consistent cfg s R) L) as [C' P].
  destruct (progressed_In _ _ d P Hd) as (d' & Hd' & _ & Hc & Ha).
  assert (Hst' : Deal.status d' = "released").
  { rewrite Hst in Ha.
    destruct Ha as [->|[[F _]|[[F _]|[F _]]]]; [reflexivity|discriminate F..]. }
  pose proof (stripped_stored _ _ C' Hd') as Hs. rewrite Hc in Hs.
  pose proof (deal_by_stored_trade_code _ _ _ C' Hd' Hc) as Hl.
  split.
  - intros now. split.
    + apply confirm_payment_not_pending with (d := d').
      * cbn [PaymentConfirmation.trade_code]. now rewrite Hs.
      * rewrite Hst'. discriminate.
    + apply release_funds_not_paid with (d := d'); [reflexivity| |].
      * cbn [AdminRelease.trade_code]. now rewrite Hs.
      * rewrite Hst'. discriminate.
  - intros x Hx E. unfold get_pending_deals in Hx. apply filter_In in Hx.
    destruct Hx as [Hin Hp]. rewrite <- Hc in E.
    assert (x = d') by (eapply same_code_same_deal; eauto). subst x.
    rewrite Hst' in Hp. discriminate Hp.
Qed.

Lemma released_for_good_witness :
  confirm_payment 7 (PaymentConfirmation.mk "AB12C") (fst (settled sqlite))
  = Raised InvalidState_not_pending (fst (settled sqlite))
  /\ release_funds default_config 7
       (AdminRelease.mk "AB12C" "p2p_secure_release_key_2024") (fst (settled sqlite))
     = Raised InvalidState_not_paid (fst (settled sqlite)).
Proof.
  assert (Hin : In (Deal.with_status "released" 6 (Deal.with_status "paid" 5 deal_AB12C))
                  (deals (fst (settled sqlite))))
    by (vm_compute; auto).
  exact (proj1 (released_for_good default_config (settled sqlite) (settled sqlite) _
                  (after_trace_reachable _ sqlite) Hin eq_refl
                  (later_now default_config _)) 7%nat).
Defined.

(** * Failed requests and growing tables *)

Lemma create_deal_raised (cfg : Config) (fuel : nat) (now : Timestamp)
    (deal : DealCreate.t) (db : Db) (r : Random) (e : Exception) (s' : Db * Random) :
  create_deal cfg fuel now deal (db, r) = Raised e s' -> fst s' = db.
Proof.
  unfold create_deal.
  destruct (listing_by_id _ db) as [listing|]; [|now intros [= _ <-]].
  destruct (unique_trade_code fuel r db) as [[c r']|]; [|discriminate].
  destruct (add_deal _ now db) as [[d db1]|] eqn:A; [|now intros [= _ <-]].
  apply add_deal_spec in A. destruct A as (_ & -> & _).
  rewrite add_log_stored; [discriminate|].
  cbn [deals]. rewrite map_app, in_app_iff. right. now left.
Qed.

Lemma confirm_payment_raised (now : Timestamp) (confirmation : PaymentConfirmation.t)
    (db db' : Db) (e : Exception) :
  confirm_payment now confirmation db = Raised e db' -> db' = db.
Proof.
  destruct (deal_by_trade_code (stripped (PaymentConfirmation.trade_code confirmation)) db)
    as [d|] eqn:E.
  - destruct (String.eqb (Deal.status d) "pending") eqn:S.
    + apply String.eqb_eq in S. now rewrite (confirm_payment_pending _ _ _ _ E S).
    + apply String.eqb_neq in S. rewrite (confirm_payment_not_pending _ _ _ _ E S).
      now intros [= _ <-].
  - rewrite (confirm_payment_missing _ _ _ E). now intros [= _ <-].
Qed.

Lemma release_funds_raised (cfg : Config) (now : Timestamp) (release : AdminRelease.t)
    (db db' : Db) (e : Exception) :
  release_funds cfg now release db = Raised e db' -> db' = db.
Proof.
  destruct (String.eqb (AdminRelease.secret release) (RELEASE_SECRET cfg)) eqn:Hs.
  - apply String.eqb_eq in Hs.
    destruct (deal_by_trade_code (stripped (AdminRelease.trade_code release)) db)
      as [d|] eqn:E.
    + destruct (String.eqb (Deal.status d) "paid") eqn:S.
      * apply String.eqb_eq in S. now rewrite (release_funds_paid _ _ _ _ _ Hs E S).
      * apply String.eqb_neq in S. rewrite (release_funds_not_paid _ _ _ _ _ Hs E S).
        now intros [= _ <-].
    + rewrite (release_funds_missing _ _ _ _ Hs E). now intros [= _ <-].
  - apply String.eqb_neq in Hs. rewrite (release_funds_forbidden _ _ _ _ Hs).
    now intros [= _ <-].
Qed.

(** X10. A request that raises, whatever the exception, leaves every table
    as it was: no handler keeps half of its writes. *)
Theorem raising_request_writes_nothing :
  forall (cfg : Config) (now : Timestamp) (req : Request) (s s' : Db * Random)
         (e : Exception),
    serve cfg now req s = Raised e s' -> fst s' = fst s.
Proof.
  intros cfg now req [db r] s' e. destruct req; cbn [serve fst snd].
  - unfold create_user. destruct (find _ (users db)); cbn [lift]; [|discriminate].
    now intros [= _ <-].
  - unfold create_listing. destruct (find _ (users db)); cbn [lift]; [discriminate|].
    now intros [= _ <-].
  - unfold post_deals. destruct (DealCreate.validate deal); [|now intros [= _ <-]].
    destruct (create_deal cfg fuel now deal (db, r)) as [d s1|e1 s1|] eqn:E;
      cbn [forget]; [discriminate| |discriminate].
    intros [= _ <-]. now apply create_deal_raised in E.
  - destruct (PaymentConfirmation.validate confirmation); [|now intros [= _ <-]].
    destruct (confirm_payment now confirmation db) as [a db1|e1 db1|] eqn:E;
      cbn [lift]; [discriminate| |discriminate].
    intros [= _ <-]. cbn [fst]. now apply confirm_payment_raised in E.
  - destruct (AdminRelease.validate release); [|now intros [= _ <-]].
    destruct (release_funds cfg now release db) as [a db1|e1 db1|] eqn:E;
      cbn [lift]; [discriminate| |discriminate].
    intros [= _ <-]. cbn [fst]. now apply release_funds_raised in E.
Qed.

Lemma raising_request_writes_nothing_witness :
  serve default_config 7 (PostDeals 2 (DealCreate.mk 100%float 1 99)) (opened postgresql)
  = Raised IntegrityError
      (fst (opened postgresql), after_codes 2 (snd (opened postgresql)))
  /\ fst (fst (opened postgresql), after_codes 2 (snd (opened postgresql)))
     = fst (opened postgresql).
Proof.
  assert (H : serve default_config 7 (PostDeals 2 (DealCreate.mk 100%float 1 99))
                (opened postgresql)
              = Raised IntegrityError
                  (fst (opened postgresql), after_codes 2 (snd (opened postgresql))))
    by (vm_compute; reflexivity).
  exact (conj H (raising_request_writes_nothing default_config 7%nat _ _ _ _ H)).
Defined.

Lemma grown_refl (db : Db) : grown db db.
Proof.
  exists [], [], [], []. rewrite !app_nil_r. cbn. repeat split; lia.
Qed.

Lemma grown_transition (k : Z) (st action : string) (notes : list Value)
    (now : Timestamp) (db : Db) :
  grown db (append_log k action notes now (set_deal_status k st now db)).
Proof.
  exists [], [], [], [Log.mk (next_id (map Log.id (logs db))) k action notes now].
  unfold append_log. cbn [users listings deals logs].
  rewrite set_deal_status_keys, !app_nil_r. cbn. repeat split; lia.
Qed.

(** X11. Serving a request never removes or rewrites a user, a listing or a
    log entry, and never removes a deal or changes its key: each table is the
    one before with rows appended, at most one new user, listing or deal and
    at most one new log entry per request. *)
Theorem tables_only_grow :
  forall (cfg : Config) (now : Timestamp) (req : Request) (s s' : Db * Random),
    final (serve cfg now req s) = Some s' ->
    exists (nu : list User.t) (nl : list Listing.t) (nd : list Z) (ng : list Log.t),
      users (fst s') = users (fst s) ++ nu
      /\ listings (fst s') = listings (fst s) ++ nl
      /\ map Deal.id (deals (fst s')) = map Deal.id (deals (fst s)) ++ nd
      /\ logs (fst s') = logs (fst s) ++ ng
      /\ (List.length nu + List.length nl + List.length nd <= 1)%nat
      /\ (List.length ng <= 1)%nat.
Proof.
  intros cfg now req s s'. change (final (serve cfg now req s) = Some s' -> grown (fst s) (fst s')).
  destruct req; cbn [serve].
  - intros H. apply final_lift in H. destruct H as [H _]. revert H.
    unfold create_user. destruct (find _ (users (fst s))); cbn [final];
      intros [= <-]; [apply grown_refl|].
    eexists [_], [], [], []. cbn [users listings deals logs].
    rewrite !app_nil_r. cbn. repeat split; lia.
  - intros H. apply final_lift in H. destruct H as [H _]. revert H.
    unfold create_listing. destruct (find _ (users (fst s))); cbn [final];
      intros [= <-]; [|apply grown_refl].
    eexists [], [_], [], []. cbn [users listings deals logs].
    rewrite !app_nil_r. cbn. repeat split; lia.
  - rewrite final_forget. unfold post_deals.
    destruct (DealCreate.validate deal);
      [|cbn [final]; intros [= <-]; apply grown_refl].
    destruct s as [db r]. intros H. cbn [fst] in *.
    apply create_deal_final in H.
    destruct H as [->|(listing & c & Hl & ->)]; [apply grown_refl|].
    eexists [], [], [_], [_]. unfold with_new_deal, append_log.
    cbn [users listings deals logs]. rewrite map_app, !app_nil_r.
    cbn. repeat split; lia.
  - destruct (PaymentConfirmation.validate confirmation);
      [|cbn [final]; intros [= <-]; apply grown_refl].
    intros H. apply final_lift in H. destruct H as [H _].
    apply confirm_payment_final in H.
    destruct H as [->|(d & _ & _ & ->)]; [apply grown_refl | apply grown_transition].
  - destruct (AdminRelease.validate release);
      [|cbn [final]; intros [= <-]; apply grown_refl].
    intros H. apply final_lift in H. destruct H as [H _].
    apply release_funds_final in H.
    destruct H as [->|(d & _ & _ & ->)]; [apply grown_refl | apply grown_transition].
Qed.

Lemma tables_only_grow_witness :
  exists (nu : list User.t) (nl : list Listing.t) (nd : list Z) (ng : list Log.t),
    users (fst (paid sqlite)) = users (fst (opened sqlite)) ++ nu
    /\ listings (fst (paid sqlite)) = listings (fst (opened sqlite)) ++ nl
    /\ map Deal.id (deals (fst (paid sqlite)))
       = map Deal.id (deals (fst (opened sqlite))) ++ nd
    /\ logs (fst (paid sqlite)) = logs (fst (opened sqlite)) ++ ng
    /\ (List.length nu + List.length nl + List.length nd <= 1)%nat
    /\ (List.length ng <= 1)%nat.
Proof.
  apply (tables_only_grow default_config 5%nat
           (PostConfirmPayment (PaymentConfirmation.mk "#AB12C"))
           (opened sqlite) (paid sqlite)).
  vm_compute. reflexivity.
Defined.

(** * Looking deals up *)

(** X12. In every reachable state [get_deal] returns each stored deal for
    its trade code, with or without a leading ["#"], and fails with HTTP 404
    "Deal not found" for a code that, once a leading ["#"] is removed, is the
    code of no stored deal. *)
Theorem get_deal_finds_stored_deals :
  forall (cfg : Config) (s : Db * Random),
    reachable cfg s ->
    (forall d : Deal.t,
       In d (deals (fst s)) ->
       get_deal (Deal.trade_code d) (fst s) = Ok d
       /\ get_deal (String "#" (Deal.trade_code d)) (fst s) = Ok d)
    /\ (forall trade_code : string,
          (forall d : Deal.t,
             In d (deals (fst s)) -> Deal.trade_code d <> stripped trade_code) ->
          get_deal trade_code (fst s) = Error NotFound_deal).
Proof.
  intros cfg s R. pose proof (reachable_consistent cfg s R) as C. split.
  - intros d Hd. pose proof (deal_by_own_trade_code _ _ C Hd) as Hl.
    unfold get_deal. fold (stripped (Deal.trade_code d)).
    fold (stripped (String "#" (Deal.trade_code d))).
    rewrite stripped_hash, (stripped_stored _ _ C Hd), Hl. now split.
  - intros c H. unfold get_deal. fold (stripped c).
    now rewrite (deal_by_trade_code_absent _ _ H).
Qed.

Lemma get_deal_finds_stored_deals_witness :
  get_deal "AB12C" (fst (opened sqlite)) = Ok deal_AB12C
  /\ get_deal "#AB12C" (fst (opened sqlite)) = Ok deal_AB12C.
Proof.
  assert (Hin : In deal_AB12C (deals (fst (opened sqlite)))) by (vm_compute; auto).
  exact (proj1 (get_deal_finds_stored_deals default_config (opened sqlite)
                  (after_trace_reachable _ sqlite)) deal_AB12C Hin).
Defined.

(** X13. A deal returned by [create_deal], in any state of the tables, is
    pending, has the listing's owner as seller and the configured escrow
    wallet, and is at once what [get_deal] returns for its code and a member
    of [get_pending_deals]. *)
Theorem create_deal_then_get_deal :
  forall (cfg : Config) (fuel : nat) (now : Timestamp) (deal : DealCreate.t)
         (s s' : Db * Random) (d : Deal.t),
    create_deal cfg fuel now deal s = Returned d s' ->
    get_deal (Deal.trade_code d) (fst s') = Ok d
    /\ get_deal (String "#" (Deal.trade_code d)) (fst s') = Ok d
    /\ In d (get_pending_deals (fst s'))
    /\ Deal.status d = "pending"
    /\ Deal.escrow_wallet d = ESCROW_WALLET cfg
    /\ Deal.buyer_id d = DealCreate.buyer_id deal
    /\ Deal.listing_id d = DealCreate.listing_id deal
    /\ (forall l : Listing.t,
          listing_by_id (DealCreate.listing_id deal) (fst s) = Some l ->
          Deal.seller_id d = Listing.user_id l).
Proof.
  intros cfg fuel now deal [db r] s' d H.
  apply create_deal_returned in H.
  destruct H as (listing & c & r' & Hl & Hu & Hd & ->).
  apply unique_trade_code_spec in Hu. destruct Hu as [Hf Hfree].
  assert (Hc : Deal.trade_code d = c) by now rewrite Hd.
  assert (Hlook : deal_by_trade_code c (with_new_deal d now db) = Some d).
  { unfold deal_by_trade_code, with_new_deal, append_log. cbn [deals].
    rewrite find_last; [reflexivity| |rewrite Hc; apply String.eqb_refl].
    intros x Hx. unfold deal_by_trade_code in Hfree.
    apply (find_none _ _ Hfree x Hx). }
  cbn [fst]. rewrite Hc. split; [|split].
  { unfold get_deal. fold (stripped c).
    now rewrite (stripped_plain c (code_format_no_hash c Hf)), Hlook. }
  { unfold get_deal. fold (stripped (String "#" c)).
    now rewrite stripped_hash, Hlook. }
  split; [|rewrite Hd; repeat split].
  - unfold get_pending_deals, with_new_deal, append_log. cbn [deals].
    apply filter_In. split; [apply in_app_iff; right; now left|].
    now rewrite Hd.
  - intros l Hl'. rewrite Hl in Hl'. now injection Hl' as <-.
Qed.

Lemma create_deal_then_get_deal_witness :
  get_deal "AB12C" (fst (opened postgresql)) = Ok deal_AB12C
  /\ get_deal "#AB12C" (fst (opened postgresql)) = Ok deal_AB12C
  /\ In deal_AB12C (get_pending_deals (fst (opened postgresql))).
Proof.
  assert (H : create_deal default_config 1 4 order (listed postgresql)
              = Returned deal_AB12C (opened postgresql)) by (vm_compute; reflexivity).
  pose proof (create_deal_then_get_deal default_config 1%nat 4%nat order
                (listed postgresql) (opened postgresql) deal_AB12C H) as T.
  exact (conj (proj1 T) (conj (proj1 (proj2 T)) (proj1 (proj2 (proj2 T))))).
Defined.



(** * A deal from creation to release *)

(** X15. A deal returned by [create_deal], in any state of the tables, goes
    through its life in order: [release_funds] with the release secret fails
    with HTTP 400 "Deal payment not confirmed" while the deal is pending;
    [confirm_payment] on its code then succeeds, and [release_funds] after it
    succeeds, reports [usdt_amount - commission_amount] of the deal as created
    and leaves the deal released. *)
Theorem deal_life_in_order :
  forall (cfg : Config) (fuel : nat) (now : Timestamp) (deal : DealCreate.t)
         (s s' : Db * Random) (d : Deal.t),
    create_deal cfg fuel now deal s = Returned d s' ->
    forall now1 now2 : Timestamp,
      release_funds cfg now1
        (AdminRelease.mk (Deal.trade_code d) (RELEASE_SECRET cfg)) (fst s')
      = Raised InvalidState_not_paid (fst s')
      /\ exists db1 db2 : Db,
           confirm_payment now1 (PaymentConfirmation.mk (Deal.trade_code d)) (fst s')
           = Returned (payment_confirmed d) db1
           /\ release_funds cfg now2
                (AdminRelease.mk (Deal.trade_code d) (RELEASE_SECRET cfg)) db1
              = Returned
                  [("message", Str "Funds released successfully");
                   ("trade_code", Str (Deal.trade_code d));
                   ("amount_released",
                    Num (Deal.usdt_amount d - Deal.commission_amount d)%float);
                   ("commission", Num (Deal.commission_amount d))] db2
           /\ deal_by_trade_code (Deal.trade_code d) db2
              = Some (Deal.with_status "released" now2 (Deal.with_status "paid" now1 d)).
Proof.
  intros cfg fuel now deal [db r] s' d H now1 now2.
  apply create_deal_returned in H.
  destruct H as (listing & c & r' & Hl & Hu & Hd & ->).
  apply unique_trade_code_spec in Hu. destruct Hu as [Hf Hfree].
  assert (Hc : Deal.trade_code d = c) by now rewrite Hd.
  assert (Hst : Deal.status d = "pending") by now rewrite Hd.
  pose proof (stripped_plain c (code_format_no_hash c Hf)) as Hs.
  assert (Hlook : deal_by_trade_code c (with_new_deal d now db) = Some d).
  { unfold deal_by_trade_code, with_new_deal, append_log. cbn [deals].
    rewrite find_last; [reflexivity| |rewrite Hc; apply String.eqb_refl].
    intros x Hx. unfold deal_by_trade_code in Hfree.
    apply (find_none _ _ Hfree x Hx). }
  cbn [fst]. rewrite Hc. split.
  - apply release_funds_not_paid with (d := d); [reflexivity| |].
    + cbn [AdminRelease.trade_code]. now rewrite Hs.
    + rewrite Hst. discriminate.
  - eexists. eexists. split; [|split].
    + apply confirm_payment_pending; [|exact Hst].
      cbn [PaymentConfirmation.trade_code]. now rewrite Hs.
    + rewrite <- Hc at 2.
      apply (release_funds_paid cfg now2 _ _ (Deal.with_status "paid" now1 d));
        [reflexivity| |reflexivity].
      cbn [AdminRelease.trade_code]. rewrite Hs.
      unfold deal_by_trade_code, append_log. cbn [deals].
      apply (set_deal_status_lookup c "paid" now1 _ d Hlook).
    + unfold deal_by_trade_code, append_log. cbn [deals].
      apply (set_deal_status_lookup c "released" now2 _ (Deal.with_status "paid" now1 d)).
      unfold deal_by_trade_code, append_log. cbn [deals].
      apply (set_deal_status_lookup c "paid" now1 _ d Hlook).
Qed.

Lemma deal_life_in_order_witness :
  release_funds default_config 5
    (AdminRelease.mk "AB12C" "p2p_secure_release_key_2024") (fst (opened sqlite))
  = Raised InvalidState_not_paid (fst (opened sqlite))
  /\ exists db1 db2 : Db,
       confirm_payment 5 (PaymentConfirmation.mk "AB12C") (fst (opened sqlite))
       = Returned (payment_confirmed deal_AB12C) db1
       /\ release_funds default_config 6
            (AdminRelease.mk "AB12C" "p2p_secure_release_key_2024") db1
          = Returned
              [("message", Str "Funds released successfully");
               ("trade_code", Str "AB12C");
               ("amount_released", Num 98.5%float);
               ("commission", Num 1.5%float)] db2
       /\ deal_by_trade_code "AB12C" db2
          = Some (Deal.with_status "released" 6 (Deal.with_status "paid" 5 deal_AB12C)).
Proof.
  assert (H : create_deal default_config 1 4 order (listed sqlite)
              = Returned deal_AB12C (opened sqlite)) by (vm_compute; reflexivity).
  exact (deal_life_in_order default_config 1%nat 4%nat order (listed sqlite)
           (opened sqlite) deal_AB12C H 5%nat 6%nat).
Defined.

(** * Pages *)


Lemma offset_limit_Some {A : Type} (skip limit : Z) (rows : list A) :
  0 <= skip < 2 ^ 63 -> 0 <= limit < 2 ^ 63 ->
  offset_limit skip limit rows
  = Some (firstn (Z.to_nat limit) (skipn (Z.to_nat skip) rows)).
Proof.
  intros Hs Hl. unfold offset_limit.
  assert (E : (0 <=? skip) && (skip <? 2 ^ 63) && (0 <=? limit) && (limit <? 2 ^ 63) = true).
  { rewrite !andb_true_iff, !Z.leb_le, !Z.ltb_lt. lia. }
  now rewrite E.
Qed.






Lemma offset_limit_In {A : Type} (skip limit : Z) (rows page : list A) (x : A) :
  offset_limit skip limit rows = Some page -> In x page -> In x rows.
Proof.
  unfold offset_limit. destruct (_ && _); [|discriminate].
  intros [= <-] H.
  rewrite <- (firstn_skipn (Z.to_nat skip) rows). apply in_app_iff. right.
  rewrite <- (firstn_skipn (Z.to_nat limit) (skipn (Z.to_nat skip) rows)).
  apply in_app_iff. now left.
Qed.

(** X18. Every listing [get_listings] returns is a stored listing whose
    status is ["active"] and, when a non-empty [listing_type] is asked for,
    whose type is the one asked for; an empty [listing_type] filters nothing,
    like none at all. *)
Theorem get_listings_filters :
  forall (skip limit : Z) (listing_type : option string) (db : Db)
         (page : list Listing.t),
    get_listings skip limit listing_type db = Some page ->
    (forall l : Listing.t,
       In l page ->
       In l (listings db)
       /\ Listing.status l = "active"
       /\ forall (a : ascii) (t : string),
            listing_type = Some (String a t) -> Listing.listing_type l = String a t)
    /\ get_listings skip limit (Some EmptyString) db = get_listings skip limit None db.
Proof.
  intros skip limit ty db page H. split; [|reflexivity].
  intros l Hl. unfold get_listings in H.
  apply (offset_limit_In _ _ _ _ l H) in Hl.
  destruct ty as [[|a t]|].
  - apply filter_In in Hl. destruct Hl as [Hin Hs]. apply String.eqb_eq in Hs.
    repeat split; try assumption. discriminate.
  - apply filter_In in Hl. destruct Hl as [Hl Ht]. apply String.eqb_eq in Ht.
    apply filter_In in Hl. destruct Hl as [Hin Hs]. apply String.eqb_eq in Hs.
    repeat split; try assumption. now intros a' t' [= <- <-].
  - apply filter_In in Hl. destruct Hl as [Hin Hs]. apply String.eqb_eq in Hs.
    repeat split; try assumption. discriminate.
Qed.

Lemma get_listings_filters_witness :
  (forall l : Listing.t,
     In l (listings (fst (listed sqlite))) ->
     In l (listings (fst (listed sqlite)))
     /\ Listing.status l = "active"
     /\ forall (a : ascii) (t : string),
          Some "sell" = Some (String a t) -> Listing.listing_type l = String a t)
  /\ get_listings 0 100 (Some EmptyString) (fst (listed sqlite))
     = get_listings 0 100 None (fst (listed sqlite)).
Proof.
  apply (get_listings_filters 0 100 (Some "sell") (fst (listed sqlite))
           (listings (fst (listed sqlite)))).
  vm_compute. reflexivity.
Defined.

Lemma filter_all {A : Type} (p : A -> bool) (l : list A) :
  Forall (fun x => p x = true) l -> filter p l = l.
Proof. induction 1 as [|x l Hx _ IH]; cbn [filter]; [reflexivity|]. now rewrite Hx, IH. Qed.

(** X19. In every reachable state every stored listing is on offer:
    [get_listings] without a type, from [skip = 0] and with a [limit] of at
    least the size of the table, returns all the listings (no handler ever
    takes a listing off the active ones). *)
Theorem every_listing_is_offered :
  forall (cfg : Config) (s : Db * Random) (limit : Z),
    reachable cfg s ->
    Z.of_nat (List.length (listings (fst s))) <= limit < 2 ^ 63 ->
    get_listings 0 limit None (fst s) = Some (listings (fst s)).
Proof.
  intros cfg s limit R Hl.
  pose proof (listings_active _ (reachable_sound cfg s R)) as A.
  unfold get_listings. rewrite filter_all.
  - rewrite offset_limit_Some by lia. cbn [Z.to_nat skipn].
    now rewrite firstn_all2 by lia.
  - eapply Forall_impl; [|exact A]. intros l ->. reflexivity.
Qed.

Lemma every_listing_is_offered_witness :
  get_listings 0 100 None (fst (paid postgresql)) = Some (listings (fst (paid postgresql))).
Proof.
  apply (every_listing_is_offered default_config (paid postgresql) 100
           (after_trace_reachable _ postgresql)).
  vm_compute. split; [discriminate | reflexivity].
Defined.

(** * The database URL *)

Lemma startswith_split (s p : string) :
  startswith s p = true -> s = (p ++ from_ (String.length p) s)%string.
Proof.
  revert s. induction p as [|a p IH]; intros s; [reflexivity|].
  destruct s as [|b s]; cbn [startswith]; [discriminate|].
  intros H. apply andb_true_iff in H. destruct H as [E H].
  apply Ascii.eqb_eq in E. subst b.
  cbn [String.length from_ String.append]. f_equal. now apply IH.
Qed.

Lemma replace_1_prefix (s old new : string) :
  startswith s old = true ->
  replace_1 s old new = (new ++ from_ (String.length old) s)%string.
Proof. intros H. destruct s; cbn [replace_1]; now rewrite H. Qed.

(** X20. The scheme [postgres://] of [DATABASE_URL] is rewritten to
    [postgresql://] and the rest of the URL kept; any other URL is used as it
    is, and [sqlite:///./p2p_trading.db] when none is set.  The result never
    starts with [postgres://], rewriting it again changes nothing, and the
    PostgreSQL engine settings are chosen exactly for the URLs given with
    scheme [postgres://] or [postgresql://]. *)
Theorem database_url_scheme :
  forall env : option string,
    startswith (DATABASE_URL env) "postgres://" = false
    /\ DATABASE_URL (Some (DATABASE_URL env)) = DATABASE_URL env
    /\ (forall rest : string,
          env = Some ("postgres://" ++ rest)%string ->
          DATABASE_URL env = ("postgresql://" ++ rest)%string)
    /\ (forall url : string,
          env = Some url -> startswith url "postgres://" = false ->
          DATABASE_URL env = url)
    /\ (env = None -> DATABASE_URL env = "sqlite:///./p2p_trading.db")
    /\ (engine_dialect (DATABASE_URL env) = postgresql
        <-> exists url : string,
              env = Some url
              /\ (startswith url "postgres://" = true
                  \/ startswith url "postgresql://" = true)).
Proof.
  intros env.
  assert (Hfix : forall url, startswith url "postgres://" = true ->
                   DATABASE_URL (Some url) = ("postgresql://" ++ from_ 11 url)%string).
  { intros url H. unfold DATABASE_URL. rewrite H. now apply replace_1_prefix. }
  assert (Hkeep : forall url, startswith url "postgres://" = false ->
                    DATABASE_URL (Some url) = url).
  { intros url H. unfold DATABASE_URL. now rewrite H. }
  assert (Hnever : startswith (DATABASE_URL env) "postgres://" = false).
  { destruct env as [url|]; [|reflexivity].
    destruct (startswith url "postgres://") eqn:E.
    - rewrite (Hfix url E). reflexivity.
    - now rewrite (Hkeep url E). }
  split; [exact Hnever|]. split; [now apply Hkeep|]. split; [|split; [|split]].
  - intros rest ->. now rewrite Hfix.
  - intros url -> H. now apply Hkeep.
  - now intros ->.
  - destruct env as [url|].
    + destruct (startswith url "postgres://") eqn:E.
      * rewrite (Hfix url E). split; [|reflexivity].
        intros _. exists url. auto.
      * rewrite (Hkeep url E). unfold engine_dialect. split.
        -- destruct (startswith url "postgresql://") eqn:F; [|discriminate].
           intros _. exists url. auto.
        -- intros (u & [= <-] & [H|H]); [congruence | now rewrite H].
    + split; [discriminate|]. now intros (u & H & _).
Qed.

Lemma database_url_scheme_witness :
  DATABASE_URL (Some "postgres://user:pw@host:5432/railway")
  = "postgresql://user:pw@host:5432/railway".
Proof.
  exact (proj1 (proj2 (proj2 (database_url_scheme
                                (Some "postgres://user:pw@host:5432/railway"))))
           "user:pw@host:5432/railway" eq_refl).
Defined.

(** * Lookups by key *)





(** * The figures of stored deals *)

Lemma priced_more_listings (cfg : Config) (rows more : list Listing.t) (d : Deal.t) :
  priced cfg rows d -> priced cfg (rows ++ more) d.
Proof.
  intros (H1 & H2 & H3 & l & Hl & H4 & H5). repeat split; try assumption.
  exists l. split; [apply in_app_iff; now left | now split].
Qed.

Lemma serve_priced (cfg : Config) (now : Timestamp) (req : Request) (s s' : Db * Random) :
  final (serve cfg now req s) = Some s' ->
  Forall (priced cfg (listings (fst s))) (deals (fst s)) ->
  Forall (priced cfg (listings (fst s'))) (deals (fst s')).
Proof.
  destruct req; cbn [serve].
  - intros H. apply final_lift in H. destruct H as [H _]. revert H.
    unfold create_user. destruct (find _ (users (fst s))); cbn [final];
      now intros [= <-].
  - intros H. apply final_lift in H. destruct H as [H _]. revert H.
    unfold create_listing. destruct (find _ (users (fst s))); cbn [final];
      intros [= <-]; [|auto].
    cbn [listings deals]. intros P. eapply Forall_impl; [|exact P].
    intros d. apply priced_more_listings.
  - rewrite final_forget. unfold post_deals.
    destruct (DealCreate.validate deal) eqn:V; [|cbn [final]; now intros [= <-]].
    destruct s as [db r]. intros H P. cbn [fst] in *.
    apply create_deal_final in H.
    destruct H as [->|(listing & c & Hl & ->)]; [exact P|].
    unfold with_new_deal, append_log. cbn [listings deals].
    apply Forall_app. split; [exact P|]. constructor; [|constructor].
    apply listing_by_id_In in Hl. destruct Hl as [Hin Hid].
    repeat split; [exact V|]. exists listing. now repeat split.
  - destruct (PaymentConfirmation.validate confirmation);
      [|cbn [final]; now intros [= <-]].
    intros H P. apply final_lift in H. destruct H as [H _].
    apply confirm_payment_final in H.
    destruct H as [->|(d & _ & _ & ->)]; [exact P|].
    unfold append_log. cbn [listings deals set_deal_status].
    rewrite Forall_map. eapply Forall_impl; [|exact P].
    intros x Hx. now destruct (Deal.id x =? Deal.id d).
  - destruct (AdminRelease.validate release); [|cbn [final]; now intros [= <-]].
    intros H P. apply final_lift in H. destruct H as [H _].
    apply release_funds_final in H.
    destruct H as [->|(d & _ & _ & ->)]; [exact P|].
    unfold append_log. cbn [listings deals set_deal_status].
    rewrite Forall_map. eapply Forall_impl; [|exact P].
    intros x Hx. now destruct (Deal.id x =? Deal.id d).
Qed.

(** X22. In every reachable state each stored deal has a [usdt_amount]
    above zero (the request schema let it through), a commission of
    [usdt_amount * (COMMISSION_PERCENT / 100)], the configured escrow wallet,
    and an [etb_amount] of [usdt_amount] times the rate of the stored listing
    it refers to: confirming and releasing never touch these figures. *)
Theorem stored_deals_are_priced :
  forall (cfg : Config) (s : Db * Random),
    reachable cfg s ->
    forall d : Deal.t,
      In d (deals (fst s)) ->
      (0 <? Deal.usdt_amount d)%float = true
      /\ Deal.commission_amount d
         = (Deal.usdt_amount d * (COMMISSION_PERCENT cfg / 100))%float
      /\ Deal.escrow_wallet d = ESCROW_WALLET cfg
      /\ exists l : Listing.t,
           In l (listings (fst s))
           /\ Listing.id l = Deal.listing_id d
           /\ Deal.etb_amount d = (Deal.usdt_amount d * Listing.rate l)%float.
Proof.
  intros cfg s R.
  assert (P : Forall (priced cfg (listings (fst s))) (deals (fst s))).
  { induction R as [dl r | s s' now req _ IH H]; [constructor|].
    eapply serve_priced; eassumption. }
  rewrite Forall_forall in P. exact P.
Qed.

Lemma stored_deals_are_priced_witness :
  (0 <? 100)%float = true
  /\ 1.5%float = (100 * (1.5 / 100))%float
  /\ "TXxxxxxx" = "TXxxxxxx"
  /\ exists l : Listing.t,
       In l (listings (fst (paid sqlite)))
       /\ Listing.id l = 1
       /\ 13000%float = (100 * Listing.rate l)%float.
Proof.
  assert (Hin : In (Deal.with_status "paid" 5 deal_AB12C) (deals (fst (paid sqlite))))
    by (vm_compute; auto).
  exact (stored_deals_are_priced default_config (paid sqlite)
           (after_trace_reachable _ sqlite) _ Hin).
Defined.
